(** * Verification of the folder mirror of [email_client.py]

    Shallow embedding of the SQLite-backed [Storage] class, the
    [sqlite_txn] context manager, the folder-related methods of
    [EmailServer] (response shaping only; the HTTP transport is an input)
    and the [__main__] sync decision.

    The SQLite connection is modelled as a database value plus the snapshot
    taken by [BEGIN IMMEDIATE] (what [ROLLBACK] restores).  Each SQL
    statement is atomic on its own (SQLite's default ON CONFLICT ABORT):
    when one of its constraints fails, the statement leaves the database as
    it was and raises [sqlite3.IntegrityError]; the statements before it in
    the transaction keep their effect until [ROLLBACK].

    The tables [emails] and [email_data] are never written by the program
    and are left out; no row of them can reference a folder. *)

From Stdlib Require Import String List ZArith Bool Lia.
From Stdlib Require Import Sorting.Permutation Sorting.Sorted.
Import ListNotations.
Open Scope string_scope.
Open Scope list_scope.

(** ** Python exceptions *)

Inductive constraint :=
| NotNull (col : string)
| Check (col : string)
| Unique (col : string)
| ForeignKey.

Inductive exn :=
| IntegrityError (c : constraint)   (** sqlite3.IntegrityError *)
| OperationalError (msg : string)   (** sqlite3.OperationalError *)
| PyException (cls : string).       (** any other exception, by class name *)

(** ** Tables (schema of [Storage.DB_INIT_STATEMENTS]) *)

Record account_row := {
  acc_id : Z;
  acc_name : string;
  acc_type : string }.

Record folder_row := {
  fr_id : Z;
  fr_account_id : option Z;
  fr_server_id : string;
  fr_name : string;
  fr_parent_server_id : option string;
  fr_role : option string;
  fr_sort_order : Z }.

Record misc_row := {
  misc_key : string;
  misc_value : string }.

Record database := {
  accounts : list account_row;
  folders : list folder_row;
  misc : list misc_row }.

(** [conn_txn] is [Some snapshot] while a transaction is open. *)
Record conn := {
  conn_db : database;
  conn_txn : option database }.

Definition empty_db : database := {| accounts := []; folders := []; misc := [] |}.

(** A connection in autocommit mode ([isolation_level=None]). *)
Definition connect (db : database) : conn := {| conn_db := db; conn_txn := None |}.

(** ** A state and exception monad over the connection *)

Inductive outcome (A : Type) :=
| Ret (a : A)
| Raise (e : exn).
Arguments Ret {A} a.
Arguments Raise {A} e.

Definition M (A : Type) := conn -> outcome A * conn.

Definition ret {A} (a : A) : M A := fun c => (Ret a, c).
Definition raise {A} (e : exn) : M A := fun c => (Raise e, c).

Definition bind {A B} (m : M A) (k : A -> M B) : M B :=
  fun c => match m c with
           | (Ret a, c') => k a c'
           | (Raise e, c') => (Raise e, c')
           end.

Notation "x <- m ;; k" := (bind m (fun x => k))
  (at level 61, m at next level, right associativity).
Notation "m ;; k" := (bind m (fun _ => k))
  (at level 61, right associativity).

(** [try: m  except BaseException as e: h e] *)
Definition try_except {A} (m : M A) (h : exn -> M A) : M A :=
  fun c => match m c with
           | (Raise e, c') => h e c'
           | r => r
           end.

(** [for x in l: body x] *)
Fixpoint for_each {A} (l : list A) (body : A -> M unit) : M unit :=
  match l with
  | [] => ret tt
  | x :: l' => body x ;; for_each l' body
  end.

(** [print(...)]: output is not modelled. *)
Definition print (s : string) : M unit := ret tt.

(** ** SQL statements *)

(** The first failing constraint, in the order SQLite checks them
    (NOT NULL, CHECK, UNIQUE, then foreign keys at the end of the
    statement). *)
Fixpoint constraints (l : list (bool * constraint)) : outcome unit :=
  match l with
  | [] => Ret tt
  | (ok, c) :: l' => if ok then constraints l' else Raise (IntegrityError c)
  end.

(** Run one statement on the database of the connection: the statement
    either succeeds, or fails leaving the database as it was. *)
Definition execute {A} (s : database -> outcome (database * A)) : M A :=
  fun c => match s (conn_db c) with
           | Ret (db', a) => (Ret a, {| conn_db := db'; conn_txn := conn_txn c |})
           | Raise e => (Raise e, c)
           end.

Definition with_check {A} (cs : list (bool * constraint)) (r : database * A)
  : outcome (database * A) :=
  match constraints cs with
  | Ret _ => Ret r
  | Raise e => Raise e
  end.

Definition opt_nonempty (o : option string) : bool :=
  match o with Some s => negb (s =? "") | None => true end.

Definition opt_eqb (o1 o2 : option string) : bool :=
  match o1, o2 with
  | Some a, Some b => a =? b
  | None, None => true
  | _, _ => false
  end.

(** [INTEGER PRIMARY KEY]: a new rowid is one more than the largest. *)
Definition next_rowid (ids : list Z) : Z := (fold_right Z.max 0 ids + 1)%Z.

(** Foreign key [parent_server_id REFERENCES folders(server_id)] of one row. *)
Definition parent_fk_ok (rows : list folder_row) (r : folder_row) : bool :=
  match fr_parent_server_id r with
  | Some p => existsb (fun q => fr_server_id q =? p) rows
  | None => true
  end.

(** [INSERT INTO accounts(name, type) VALUES(?, ?)]; returns [lastrowid]. *)
Definition insert_account (name type_ : string) (db : database)
  : outcome (database * Z) :=
  let id := next_rowid (map acc_id (accounts db)) in
  let r := {| acc_id := id; acc_name := name; acc_type := type_ |} in
  with_check
    [(negb (name =? ""), Check "accounts.name");
     ((type_ =? "JMAP") || (type_ =? "IMAP") || (type_ =? "local"), Check "accounts.type");
     (negb (existsb (fun a => acc_name a =? name) (accounts db)), Unique "accounts.name")]
    ({| accounts := accounts db ++ [r]; folders := folders db; misc := misc db |}, id).

(** [INSERT INTO folders(...)]; [account_id] is [None] when the statement
    does not list the column (it has no default, so it is NULL). *)
Definition insert_folder (account_id : option Z) (server_id name : string)
    (role parent_id : option string) (sort_order : Z) (db : database)
  : outcome (database * unit) :=
  let r := {| fr_id := next_rowid (map fr_id (folders db));
              fr_account_id := account_id; fr_server_id := server_id;
              fr_name := name; fr_parent_server_id := parent_id;
              fr_role := role; fr_sort_order := sort_order |} in
  let rows' := folders db ++ [r] in
  with_check
    [(match account_id with Some _ => true | None => false end, NotNull "folders.account_id");
     (negb (server_id =? ""), Check "folders.server_id");
     (negb (name =? ""), Check "folders.name");
     (opt_nonempty parent_id, Check "folders.parent_server_id");
     (negb (existsb (fun q => fr_server_id q =? server_id) (folders db)), Unique "folders.server_id");
     (match account_id with
      | Some a => existsb (fun x => acc_id x =? a)%Z (accounts db)
      | None => true end, ForeignKey);
     (parent_fk_ok rows' r, ForeignKey)]
    ({| accounts := accounts db; folders := rows'; misc := misc db |}, tt).

(** [UPDATE folders SET name=?, role=?, parent_server_id=?, sort_order=?
    WHERE server_id=?]: constraints are checked on every updated row. *)
Definition update_folder (name : string) (role parent_id : option string)
    (sort_order : Z) (server_id : string) (db : database)
  : outcome (database * unit) :=
  let hit r := fr_server_id r =? server_id in
  let upd r := if hit r
               then {| fr_id := fr_id r; fr_account_id := fr_account_id r;
                       fr_server_id := fr_server_id r; fr_name := name;
                       fr_parent_server_id := parent_id; fr_role := role;
                       fr_sort_order := sort_order |}
               else r in
  let rows' := map upd (folders db) in
  let changed := filter hit rows' in
  with_check
    [(forallb (fun r => negb (fr_name r =? "")) changed, Check "folders.name");
     (forallb (fun r => opt_nonempty (fr_parent_server_id r)) changed,
       Check "folders.parent_server_id");
     (forallb (parent_fk_ok rows') changed, ForeignKey)]
    ({| accounts := accounts db; folders := rows'; misc := misc db |}, tt).

(** [DELETE FROM folders WHERE server_id=?]: a deleted row whose key no
    longer exists must not be referenced by a remaining row. *)
Definition delete_folder (server_id : string) (db : database)
  : outcome (database * unit) :=
  let hit r := fr_server_id r =? server_id in
  let gone := filter hit (folders db) in
  let kept := filter (fun r => negb (hit r)) (folders db) in
  let orphaned g :=
    negb (existsb (fun k => fr_server_id k =? fr_server_id g) kept)
    && existsb (fun k => opt_eqb (fr_parent_server_id k) (Some (fr_server_id g))) kept in
  with_check
    [(negb (existsb orphaned gone), ForeignKey)]
    ({| accounts := accounts db; folders := kept; misc := misc db |}, tt).

(** [INSERT INTO misc(key, value) VALUES(?, ?)] *)
Definition insert_misc (key value : string) (db : database)
  : outcome (database * unit) :=
  with_check
    [(negb (key =? ""), Check "misc.key");
     (negb (value =? ""), Check "misc.value");
     (negb (existsb (fun m => misc_key m =? key) (misc db)), Unique "misc.key")]
    ({| accounts := accounts db; folders := folders db;
        misc := misc db ++ [{| misc_key := key; misc_value := value |}] |}, tt).

(** [UPDATE misc SET value = ? WHERE key = ?] *)
Definition update_misc (value key : string) (db : database)
  : outcome (database * unit) :=
  let hit m := misc_key m =? key in
  let rows' := map (fun m => if hit m then {| misc_key := misc_key m; misc_value := value |}
                             else m) (misc db) in
  with_check
    [(forallb (fun m => negb (misc_value m =? "")) (filter hit rows'), Check "misc.value")]
    ({| accounts := accounts db; folders := folders db; misc := rows' |}, tt).

(** ** [sqlite_txn] *)

Definition begin_immediate : M unit :=
  fun c => match conn_txn c with
           | None => (Ret tt, {| conn_db := conn_db c; conn_txn := Some (conn_db c) |})
           | Some _ => (Raise (OperationalError "cannot start a transaction within a transaction"), c)
           end.

Definition commit : M unit :=
  fun c => match conn_txn c with
           | Some _ => (Ret tt, {| conn_db := conn_db c; conn_txn := None |})
           | None => (Raise (OperationalError "cannot commit - no transaction is active"), c)
           end.

Definition rollback : M unit :=
  fun c => match conn_txn c with
           | Some snap => (Ret tt, {| conn_db := snap; conn_txn := None |})
           | None => (Raise (OperationalError "cannot rollback - no transaction is active"), c)
           end.

(** [with sqlite_txn(cursor): body] *)
Definition sqlite_txn (body : M unit) : M unit :=
  begin_immediate ;;
  try_except (body ;; commit) (fun e => rollback ;; raise e).

(** ** [Storage] *)

(** Folder dictionaries as [EmailServer.get_folders] builds them. *)
Record folder_info := {
  fi_server_id : string;
  fi_name : string;
  fi_role : option string;
  fi_parent_id : option string;
  fi_sort_order : Z }.

(** Folder dictionaries of [get_folder_changes] ('created', 'updated'). *)
Record folder_change := {
  ch_id : string;
  ch_name : string;
  ch_role : option string;
  ch_parent_id : option string;
  ch_sort_order : Z }.

(** [{'id': id}] entries of 'deleted'. *)
Record deleted_ref := { del_id : string }.

Record folder_changes := {
  created : list folder_change;
  deleted : list deleted_ref;
  updated : list folder_change }.

Definition folders_state_key : string := "folders-state".

(** [Storage.folders_state]: [SELECT value FROM misc WHERE key =
    'folders-state'], then [if result: return result[0]]; a fetched row is
    a non-empty tuple, so it is always truthy. *)
Definition folders_state (db : database) : option string :=
  match find (fun m => misc_key m =? folders_state_key) (misc db) with
  | Some m => Some (misc_value m)
  | None => None
  end.

(** [Storage.save_folders(folders, state, account_name)] *)
Definition save_folders (fs : list folder_info) (state account_name : string) : M unit :=
  sqlite_txn (
    account_id <- execute (insert_account account_name "JMAP") ;;
    for_each fs (fun f =>
      execute (insert_folder (Some account_id) (fi_server_id f) (fi_name f)
                             (fi_role f) (fi_parent_id f) (fi_sort_order f))) ;;
    execute (insert_misc folders_state_key state)).

(** [Storage.update_folders(folder_changes, state)]; the INSERT does not
    list [account_id]. *)
Definition update_folders (fc : folder_changes) (state : string) : M unit :=
  sqlite_txn (
    for_each (created fc) (fun f =>
      print "creating folder" ;;
      execute (insert_folder None (ch_id f) (ch_name f) (ch_role f)
                             (ch_parent_id f) (ch_sort_order f))) ;;
    for_each (updated fc) (fun f =>
      print "updating folder" ;;
      execute (update_folder (ch_name f) (ch_role f) (ch_parent_id f)
                             (ch_sort_order f) (ch_id f))) ;;
    for_each (deleted fc) (fun f =>
      print "deleting folder" ;;
      execute (delete_folder (del_id f))) ;;
    execute (update_misc state folders_state_key)).

(** Both write methods run on a connection in autocommit mode. *)
Definition run_save_folders (db : database) fs state account_name :=
  save_folders fs state account_name (connect db).

Definition run_update_folders (db : database) fc state :=
  update_folders fc state (connect db).

(** *** Read model: [get_folders] and [get_folder] *)

(** Python truthiness of [parent_id] ([None] or a string). *)
Definition truthy (o : option string) : bool :=
  match o with Some s => negb (s =? "") | None => false end.

(** [ORDER BY sort_order, name] (BINARY collation). *)
Definition order_le (a b : folder_row) : bool :=
  (fr_sort_order a <? fr_sort_order b)%Z
  || ((fr_sort_order a =? fr_sort_order b)%Z
      && match String.compare (fr_name a) (fr_name b) with Gt => false | _ => true end).

Fixpoint insert_ordered (r : folder_row) (l : list folder_row) : list folder_row :=
  match l with
  | [] => [r]
  | x :: l' => if order_le r x then r :: l else x :: insert_ordered r l'
  end.

Fixpoint order_by (l : list folder_row) : list folder_row :=
  match l with
  | [] => []
  | x :: l' => insert_ordered x (order_by l')
  end.

(** A row of the result: [{'server_id': r[0], 'name': r[1]}]. *)
Record folder_view := { fv_server_id : string; fv_name : string }.

Definition view (r : folder_row) : folder_view :=
  {| fv_server_id := fr_server_id r; fv_name := fr_name r |}.

(** [Storage.get_folders(parent_id=None)]: [parent_server_id = ?] never
    matches NULL. *)
Definition get_folders (db : database) (parent_id : option string) : list folder_view :=
  let results :=
    if truthy parent_id
    then order_by (filter (fun r => match fr_parent_server_id r, parent_id with
                                    | Some p, Some q => p =? q
                                    | _, _ => false end) (folders db))
    else order_by (filter (fun r => match fr_parent_server_id r with
                                    | None => true | Some _ => false end) (folders db)) in
  map view results.

(** [{'id': folder[0], 'name': folder[1]}] *)
Record folder_ref := { ref_id : string; ref_name : string }.

(** [Storage.get_folder(folder_id)]: [fetchone()] gives [None] when no row
    matches, and [None[0]] raises [TypeError]. *)
Definition get_folder (db : database) (folder_id : string) : outcome folder_ref :=
  match find (fun r => fr_server_id r =? folder_id) (folders db) with
  | Some r => Ret {| ref_id := fr_server_id r; ref_name := fr_name r |}
  | None => Raise (PyException "TypeError")
  end.

(** ** [EmailServer]: shaping of the JMAP responses *)

(** A JMAP Mailbox object. *)
Record mailbox := {
  mb_id : string;
  mb_name : string;
  mb_role : option string;
  mb_parentId : option string;
  mb_sortOrder : Z }.

(** Arguments of a [Mailbox/get] response. *)
Record mailbox_get := {
  mg_state : string;
  mg_list : list mailbox }.

(** Arguments of a [Mailbox/changes] response; [updatedProperties] is
    [null] or a list of property names. *)
Record mailbox_changes := {
  mc_newState : string;
  mc_created : list string;
  mc_updated : list string;
  mc_destroyed : list string;
  mc_updatedProperties : option (list string) }.

(** The three method responses of the batched request of
    [get_folder_changes]. *)
Record changes_responses := {
  resp_changes : mailbox_changes;
  resp_created : mailbox_get;
  resp_updated : mailbox_get }.

Definition nonempty {A} (l : list A) : bool :=
  match l with [] => false | _ => true end.

Definition props_truthy (o : option (list string)) : bool :=
  match o with Some l => nonempty l | None => false end.

(** [EmailServer.get_folders] after the HTTP round trip. *)
Definition server_get_folders (r : mailbox_get) : string * list folder_info :=
  (mg_state r,
   map (fun m => {| fi_server_id := mb_id m; fi_name := mb_name m; fi_role := mb_role m;
                    fi_parent_id := mb_parentId m; fi_sort_order := mb_sortOrder m |})
       (mg_list r)).

Definition to_change (m : mailbox) : folder_change :=
  {| ch_id := mb_id m; ch_name := mb_name m; ch_role := mb_role m;
     ch_parent_id := mb_parentId m; ch_sort_order := mb_sortOrder m |}.

(** [EmailServer.get_folder_changes] after the HTTP round trip. *)
Definition get_folder_changes (r : changes_responses) : string * folder_changes :=
  let info := resp_changes r in
  let created' :=
    if nonempty (mc_created info) then map to_change (mg_list (resp_created r)) else [] in
  let updated' :=
    if nonempty (mc_updated info) && negb (props_truthy (mc_updatedProperties info))
    then map to_change (mg_list (resp_updated r)) else [] in
  (mc_newState info,
   {| created := created';
      deleted := map (fun id => {| del_id := id |}) (mc_destroyed info);
      updated := updated' |}).

(** ** [__main__]: the sync decision *)

(** What the server answers: the account id, the [Mailbox/get] listing,
    and the changes responses for a given [sinceState]. *)
Record server := {
  srv_account_id : string;
  srv_folders : mailbox_get;
  srv_changes : string -> changes_responses }.

Definition main_sync (srv : server) : M unit :=
  fun c =>
    let fs_state := folders_state (conn_db c) in
    if negb (truthy fs_state) then
      let '(state, fs) := server_get_folders (srv_folders srv) in
      save_folders fs state (srv_account_id srv) c
    else
      let '(state, fc) :=
        get_folder_changes (srv_changes srv (match fs_state with Some s => s | None => "" end)) in
      update_folders fc state c.

(** ** [Storage.delete_folders] *)

(** [DELETE FROM misc WHERE key = ?]: no foreign key references [misc]. *)
Definition delete_misc (key : string) (db : database) : outcome (database * unit) :=
  Ret ({| accounts := accounts db; folders := folders db;
          misc := filter (fun m => negb (misc_key m =? key)) (misc db) |}, tt).

(** [DELETE FROM folders]: every row is deleted, none is kept, and the
    foreign key is checked as for [delete_folder]. *)
Definition delete_all_folders (db : database) : outcome (database * unit) :=
  let gone := folders db in
  let kept : list folder_row := [] in
  let orphaned g :=
    negb (existsb (fun k => fr_server_id k =? fr_server_id g) kept)
    && existsb (fun k => opt_eqb (fr_parent_server_id k) (Some (fr_server_id g))) kept in
  with_check
    [(negb (existsb orphaned gone), ForeignKey)]
    ({| accounts := accounts db; folders := kept; misc := misc db |}, tt).

Definition delete_folders : M unit :=
  sqlite_txn (
    execute (delete_misc folders_state_key) ;;
    execute delete_all_folders).

Definition run_delete_folders (db : database) := delete_folders (connect db).

(** ** The constraints of the schema, as a property of a database *)

(** NOT NULL and CHECK constraints of one [folders] row. *)
Definition folder_row_ok (r : folder_row) : Prop :=
  fr_account_id r <> None /\ fr_server_id r <> "" /\ fr_name r <> "" /\
  opt_nonempty (fr_parent_server_id r) = true.

(** UNIQUE [server_id], the self-referencing foreign key, and the row
    constraints. *)
Definition folders_wf (rows : list folder_row) : Prop :=
  NoDup (map fr_server_id rows) /\
  (forall r, In r rows -> parent_fk_ok rows r = true) /\
  Forall folder_row_ok rows.

(** UNIQUE [key] and CHECK [value != ""] of [misc]. *)
Definition misc_wf (ms : list misc_row) : Prop :=
  NoDup (map misc_key ms) /\ Forall (fun m => misc_value m <> "") ms.

Definition wf (db : database) : Prop := folders_wf (folders db) /\ misc_wf (misc db).

(** The databases the program can produce from the freshly created one. *)
Inductive reachable : database -> Prop :=
| reach_empty : reachable empty_db
| reach_save : forall db fs st acct,
    reachable db -> reachable (conn_db (snd (run_save_folders db fs st acct)))
| reach_update : forall db fc st,
    reachable db -> reachable (conn_db (snd (run_update_folders db fc st)))
| reach_delete : forall db,
    reachable db -> reachable (conn_db (snd (run_delete_folders db))).

(** Folder listings that [save_folders] accepts after the folders with
    server ids [known]: every row constraint holds, ids are new, and a
    parent is already known (or is the folder itself). *)
Fixpoint inserts_ok (known : list string) (fs : list folder_info) : bool :=
  match fs with
  | [] => true
  | f :: fs' =>
      negb (fi_server_id f =? "") && negb (fi_name f =? "")
      && opt_nonempty (fi_parent_id f)
      && negb (existsb (fun s => s =? fi_server_id f) known)
      && match fi_parent_id f with
         | Some p => existsb (fun s => s =? p) (known ++ [fi_server_id f])
         | None => true
         end
      && inserts_ok (known ++ [fi_server_id f]) fs'
  end.

(** ** [EmailServer]: the lazily initialized session *)

(** The fields filled by [_init_session]; [session_requests] counts the
    GET requests to [SESSION_URL]. *)
Record server_state := {
  s_account_id : option string;
  s_api_url : option string;
  s_download_url : option string;
  session_requests : nat }.

(** What [SESSION_URL] answers. *)
Record session_info := {
  si_account_id : string;
  si_api_url : string;
  si_download_url : string }.

Definition new_server : server_state :=
  {| s_account_id := None; s_api_url := None; s_download_url := None;
     session_requests := 0 |}.

(** [_init_session]; [session n] is the answer to the [n]-th request. *)
Definition init_session (session : nat -> session_info) (s : server_state) : server_state :=
  let info := session (session_requests s) in
  {| s_account_id := Some (si_account_id info); s_api_url := Some (si_api_url info);
     s_download_url := Some (si_download_url info);
     session_requests := S (session_requests s) |}.

(** The [account_id] property: [if not self._account_id:
    self._init_session()], then [return self._account_id]. *)
Definition get_account_id (session : nat -> session_info) (s : server_state)
  : option string * server_state :=
  let s' := if truthy (s_account_id s) then s else init_session session s in
  (s_account_id s', s').

(** The [api_url] property. *)
Definition get_api_url (session : nat -> session_info) (s : server_state)
  : option string * server_state :=
  let s' := if truthy (s_api_url s) then s else init_session session s in
  (s_api_url s', s').

Definition set_token (st : string) (m : misc_row) : misc_row :=
  if misc_key m =? folders_state_key then {| misc_key := misc_key m; misc_value := st |} else m.

(** The row update of [update_folder]. *)
Definition upd_row (name : string) (role parent_id : option string) (sort_order : Z)
    (server_id : string) (r : folder_row) : folder_row :=
  if fr_server_id r =? server_id
  then {| fr_id := fr_id r; fr_account_id := fr_account_id r;
          fr_server_id := fr_server_id r; fr_name := name;
          fr_parent_server_id := parent_id; fr_role := role;
          fr_sort_order := sort_order |}
  else r.

(** ** [GUI]: the folder tree and the header of the email list *)

(** A [ttk.Treeview] as its list of [(iid, name)] items; the root item has
    the identifier [""], and [insert] with an identifier that already
    exists raises [TclError]. *)
Definition tree_insert (tree : list (string * string)) (iid name : string)
  : outcome (list (string * string)) :=
  if (iid =? "") || existsb (fun e => fst e =? iid) tree
  then Raise (PyException "TclError")
  else Ret (tree ++ [(iid, name)]).

(** [for f in folders: self.folders_tree.insert(..., iid=f['server_id'],
    values=(f['name'],))] *)
Fixpoint fill_tree (tree : list (string * string)) (fs : list folder_view)
  : outcome (list (string * string)) :=
  match fs with
  | [] => Ret tree
  | f :: fs' =>
      match tree_insert tree (fv_server_id f) (fv_name f) with
      | Ret tree' => fill_tree tree' fs'
      | Raise e => Raise e
      end
  end.

(** [GUI.show_folders]: the root folders, [self.storage.get_folders()]. *)
Definition show_folders (db : database) : outcome (list (string * string)) :=
  fill_tree [] (get_folders db None).

(** [GUI.show_emails(folder_id)]: the label of the list, and the id passed
    to [server.get_emails] ([None] when no folder is selected). *)
Definition show_emails (db : database) (folder_id : option string)
  : outcome (string * option string) :=
  if truthy folder_id then
    match get_folder db (match folder_id with Some s => s | None => "" end) with
    | Ret fi => Ret (ref_name fi, Some (ref_id fi))
    | Raise e => Raise e
    end
  else Ret ("Emails", None).

(** [db'] keeps the constraints of the schema if [db] does. *)
Definition wf_step (db db' : database) : Prop := wf db -> wf db'.

(** No server id appears and the accounts stay as they are. *)
Definition no_new_folder (a b : database) : Prop :=
  incl (map fr_server_id (folders b)) (map fr_server_id (folders a)) /\ accounts b = accounts a.


(** The CHECK constraints of one [accounts] row. *)
Definition account_row_ok (a : account_row) : Prop :=
  acc_name a <> "" /\ (acc_type a = "JMAP" \/ acc_type a = "IMAP" \/ acc_type a = "local").

(** The constraints of the schema that [wf] leaves out: the primary keys,
    UNIQUE [accounts.name], the CHECKs of [accounts], the foreign key
    [folders.account_id], and CHECK [misc.key != ""]. *)
Definition rest_ok (db : database) : Prop :=
  NoDup (map acc_id (accounts db)) /\ NoDup (map acc_name (accounts db)) /\
  Forall account_row_ok (accounts db) /\
  NoDup (map fr_id (folders db)) /\
  Forall (fun r => exists a, fr_account_id r = Some a /\ In a (map acc_id (accounts db)))
         (folders db) /\
  Forall (fun m => misc_key m <> "") (misc db).

(** Every constraint of [DB_INIT_STATEMENTS] on the tables the program
    writes. *)
Definition schema_ok (db : database) : Prop := wf db /\ rest_ok db.

Definition rest_step (db db' : database) : Prop := rest_ok db -> rest_ok db'.

(** ** Fixtures: a mirror bootstrapped with A (root), B (child of A)
    and C (root) *)

Definition fA : folder_info :=
  {| fi_server_id := "A"; fi_name := "Archive"; fi_role := None;
     fi_parent_id := None; fi_sort_order := 0%Z |}.
Definition fB : folder_info :=
  {| fi_server_id := "B"; fi_name := "Bills"; fi_role := None;
     fi_parent_id := Some "A"; fi_sort_order := 0%Z |}.
Definition fC : folder_info :=
  {| fi_server_id := "C"; fi_name := "Inbox"; fi_role := Some "inbox";
     fi_parent_id := None; fi_sort_order := 0%Z |}.

Definition db_abc : database :=
  conn_db (snd (run_save_folders empty_db [fA; fB; fC] "t1" "acct")).

Definition row_of (acc id : Z) (f : folder_info) : folder_row :=
  {| fr_id := id; fr_account_id := Some acc; fr_server_id := fi_server_id f;
     fr_name := fi_name f; fr_parent_server_id := fi_parent_id f;
     fr_role := fi_role f; fr_sort_order := fi_sort_order f |}.

(** Diffs on [db_abc]. *)
Definition diff_del_A : folder_changes :=
  {| created := []; updated := []; deleted := [{| del_id := "A" |}] |}.
Definition diff_new_D : folder_changes :=
  {| created := [{| ch_id := "D"; ch_name := "Drafts"; ch_role := Some "drafts";
                    ch_parent_id := None; ch_sort_order := 0%Z |}];
     updated := []; deleted := [] |}.
Definition diff_phantom : folder_changes :=
  {| created := [];
     updated := [{| ch_id := "X"; ch_name := "Gone"; ch_role := None;
                    ch_parent_id := None; ch_sort_order := 0%Z |}];
     deleted := [] |}.

(** A server answering with a rename of [A] whose changed properties are
    not listed ([updatedProperties = null]). *)
Definition mb_A_renamed : mailbox :=
  {| mb_id := "A"; mb_name := "Old mail"; mb_role := None; mb_parentId := None;
     mb_sortOrder := 0%Z |}.

Definition resp_rename_A : changes_responses :=
  {| resp_changes := {| mc_newState := "t2"; mc_created := []; mc_updated := ["A"];
                        mc_destroyed := []; mc_updatedProperties := None |};
     resp_created := {| mg_state := "t2"; mg_list := [] |};
     resp_updated := {| mg_state := "t2"; mg_list := [mb_A_renamed] |} |}.

(** The same update of [A], reported with the changed properties
    (only the counts changed). *)
Definition resp_counts_A : changes_responses :=
  {| resp_changes := {| mc_newState := "t2"; mc_created := []; mc_updated := ["A"];
                        mc_destroyed := []; mc_updatedProperties := Some ["totalEmails"] |};
     resp_created := {| mg_state := "t2"; mg_list := [] |};
     resp_updated := {| mg_state := "t2"; mg_list := [mb_A_renamed] |} |}.

(** A changes response whose [Mailbox/get] lists a child before its
    parent. *)
Definition mb_P : mailbox :=
  {| mb_id := "P"; mb_name := "Projects"; mb_role := None; mb_parentId := None;
     mb_sortOrder := 0%Z |}.
Definition mb_Q : mailbox :=
  {| mb_id := "Q"; mb_name := "Quarterly"; mb_role := None; mb_parentId := Some "P";
     mb_sortOrder := 0%Z |}.

Definition resp_child_first : changes_responses :=
  {| resp_changes := {| mc_newState := "t2"; mc_created := ["Q"; "P"]; mc_updated := [];
                        mc_destroyed := []; mc_updatedProperties := None |};
     resp_created := {| mg_state := "t2"; mg_list := [mb_Q; mb_P] |};
     resp_updated := {| mg_state := "t2"; mg_list := [] |} |}.

Definition srv_demo : server :=
  {| srv_account_id := "acct";
     srv_folders := {| mg_state := "t1";
                       mg_list := [{| mb_id := "A"; mb_name := "Archive"; mb_role := None;
                                      mb_parentId := None; mb_sortOrder := 0%Z |}] |};
     srv_changes := fun _ => resp_rename_A |}.

(** Reading of the spec, not of the source: in [l] no folder comes before
    its parent ("ordered by hierarchy depth, root-most first"). *)
Fixpoint parents_first (l : list folder_change) : bool :=
  match l with
  | [] => true
  | f :: l' => negb (existsb (fun g => opt_eqb (ch_parent_id f) (Some (ch_id g))) l')
               && parents_first l'
  end.

(** ** Generic facts: statements, loops and [sqlite_txn] *)

Lemma constraints_raise : forall cs e,
  constraints cs = Raise e -> exists k, e = IntegrityError k.
Proof.
  induction cs as [|[ok c] cs IH]; simpl; intros e H; [discriminate|].
  destruct ok; [now apply IH|]. inversion H; eauto.
Qed.

Lemma with_check_raise : forall {A} cs (r : database * A) e,
  with_check cs r = Raise e -> exists k, e = IntegrityError k.
Proof.
  unfold with_check; intros A cs r e H.
  destruct (constraints cs) eqn:Hc; [discriminate|].
  inversion H; subst; eauto using constraints_raise.
Qed.

Lemma with_check_ret : forall {A} cs (r r' : database * A),
  with_check cs r = Ret r' -> r' = r.
Proof.
  unfold with_check; intros A cs r r' H.
  destruct (constraints cs); now inversion H.
Qed.

Section Safe.
(** [Q db db'] relates the database before and after an action. *)
Variable Q : database -> database -> Prop.
Hypothesis Q_refl : forall db, Q db db.
Hypothesis Q_trans : forall a b c, Q a b -> Q b c -> Q a c.

(** An action inside a transaction: it leaves the transaction state
    alone, relates its databases by [Q], and raises only
    [IntegrityError]. *)
Definition safe {A} (m : M A) : Prop :=
  forall c r c', m c = (r, c') ->
    conn_txn c' = conn_txn c /\ Q (conn_db c) (conn_db c') /\
    (forall e, r = Raise e -> exists k, e = IntegrityError k).

Lemma safe_ret : forall {A} (a : A), safe (ret a).
Proof.
  unfold safe, ret; intros A a c r c' H; inversion H; subst.
  repeat split; auto. intros e He; discriminate.
Qed.

Lemma safe_print : forall s, safe (print s).
Proof. intros; apply safe_ret. Qed.

Lemma safe_bind : forall {A B} (m : M A) (k : A -> M B),
  safe m -> (forall a, safe (k a)) -> safe (bind m k).
Proof.
  unfold safe, bind; intros A B m k Hm Hk c r c' H.
  destruct (m c) as [[a|e] c1] eqn:E.
  - destruct (Hm _ _ _ E) as [T1 [Q1 _]].
    destruct (Hk a _ _ _ H) as [T2 [Q2 R2]].
    repeat split; eauto; congruence.
  - inversion H; subst. destruct (Hm _ _ _ E) as [T1 [Q1 R1]].
    repeat split; auto. intros e' He'; inversion He'; subst; eauto.
Qed.

Lemma safe_for_each : forall {A} (l : list A) body,
  (forall x, In x l -> safe (body x)) -> safe (for_each l body).
Proof.
  induction l as [|x l IH]; simpl; intros body Hb.
  - apply safe_ret.
  - apply safe_bind; [apply Hb; now left|].
    intros _; apply IH; intros; apply Hb; now right.
Qed.

Lemma safe_execute : forall {A} (s : database -> outcome (database * A)),
  (forall db db' a, s db = Ret (db', a) -> Q db db') ->
  (forall db e, s db = Raise e -> exists k, e = IntegrityError k) ->
  safe (execute s).
Proof.
  unfold safe, execute; intros A s HQ HR c r c' H.
  destruct (s (conn_db c)) as [[db' a]|e] eqn:E; inversion H; subst; simpl.
  - repeat split; eauto. intros e' He'; discriminate.
  - repeat split; auto. intros e' He'; inversion He'; subst; eauto.
Qed.
End Safe.

Create HintDb safe_db.
#[local] Hint Resolve safe_ret safe_print safe_bind safe_for_each : safe_db.

(** [sqlite_txn] on a connection in autocommit mode: the body runs on a
    connection whose snapshot is the starting database; on success the
    body's database is committed, on any exception the starting database
    is restored and the exception re-raised. *)
Lemma sqlite_txn_connect : forall Q body db,
  safe Q body ->
  sqlite_txn body (connect db) =
    match body {| conn_db := db; conn_txn := Some db |} with
    | (Ret _, c') => (Ret tt, connect (conn_db c'))
    | (Raise e, _) => (Raise e, connect db)
    end.
Proof.
  intros Q body db Hs.
  unfold sqlite_txn, bind, try_except, begin_immediate; simpl.
  destruct (body {| conn_db := db; conn_txn := Some db |}) as [r c'] eqn:E.
  destruct (Hs _ _ _ E) as [T _]; simpl in T.
  destruct r as [u|e]; unfold commit, rollback, raise; rewrite T; reflexivity.
Qed.

(** Statements other than the [misc] ones leave [misc] alone. *)
Definition same_misc (db db' : database) : Prop := misc db' = misc db.

Lemma same_misc_refl : forall db, same_misc db db.
Proof. reflexivity. Qed.

Lemma same_misc_trans : forall a b c, same_misc a b -> same_misc b c -> same_misc a c.
Proof. unfold same_misc; congruence. Qed.

Definition anything (db db' : database) : Prop := True.

Lemma anything_refl : forall db, anything db db.
Proof. constructor. Qed.

Lemma anything_trans : forall a b c, anything a b -> anything b c -> anything a c.
Proof. constructor. Qed.

Ltac stmt_safe :=
  apply safe_execute;
  [ intro; first [reflexivity | constructor]
  | intros ? ? ? Hs; apply with_check_ret in Hs; inversion Hs; subst;
    try reflexivity; try constructor
  | intros ? ? Hs; eapply with_check_raise; exact Hs ].

Lemma insert_account_safe : forall name ty, safe same_misc (execute (insert_account name ty)).
Proof. intros; stmt_safe. Qed.

Lemma insert_folder_safe : forall a s n ro p so,
  safe same_misc (execute (insert_folder a s n ro p so)).
Proof. intros; stmt_safe. Qed.

Lemma update_folder_safe : forall n ro p so s,
  safe same_misc (execute (update_folder n ro p so s)).
Proof. intros; stmt_safe. Qed.

Lemma delete_folder_safe : forall s, safe same_misc (execute (delete_folder s)).
Proof. intros; stmt_safe. Qed.

Lemma insert_misc_safe : forall k v, safe anything (execute (insert_misc k v)).
Proof. intros; stmt_safe. Qed.

Lemma update_misc_safe : forall v k, safe anything (execute (update_misc v k)).
Proof. intros; stmt_safe. Qed.

Lemma safe_weaken : forall (Q Q' : database -> database -> Prop) {A} (m : M A),
  (forall a b, Q a b -> Q' a b) -> safe Q m -> safe Q' m.
Proof.
  unfold safe; intros Q Q' A m HQ Hm c r c' H.
  destruct (Hm _ _ _ H) as [T [Hq R]]; auto.
Qed.

Lemma bind_ret_inv : forall {A B} (m : M A) (k : A -> M B) c b c',
  bind m k c = (Ret b, c') ->
  exists a c1, m c = (Ret a, c1) /\ k a c1 = (Ret b, c').
Proof.
  unfold bind; intros A B m k c b c' H.
  destruct (m c) as [[a|e] c1]; [eauto | discriminate].
Qed.

Lemma bind_raise : forall {A B} (m : M A) (k : A -> M B) c e c1,
  m c = (Raise e, c1) -> bind m k c = (Raise e, c1).
Proof. unfold bind; intros; now rewrite H. Qed.

Lemma bind_ret : forall {A B} (m : M A) (k : A -> M B) c a c1,
  m c = (Ret a, c1) -> bind m k c = k a c1.
Proof. unfold bind; intros; now rewrite H. Qed.

#[local] Hint Resolve same_misc_refl same_misc_trans anything_refl anything_trans : safe_db.

Lemma created_loop_safe : forall l,
  safe same_misc (for_each l (fun f =>
      print "creating folder" ;;
      execute (insert_folder None (ch_id f) (ch_name f) (ch_role f)
                             (ch_parent_id f) (ch_sort_order f)))).
Proof.
  intros l; apply safe_for_each; try solve [eauto with safe_db]; intros f _.
  apply safe_bind; try solve [eauto with safe_db]; intros _.
  apply insert_folder_safe.
Qed.

Lemma updated_loop_safe : forall l,
  safe same_misc (for_each l (fun f =>
      print "updating folder" ;;
      execute (update_folder (ch_name f) (ch_role f) (ch_parent_id f)
                             (ch_sort_order f) (ch_id f)))).
Proof.
  intros l; apply safe_for_each; try solve [eauto with safe_db]; intros f _.
  apply safe_bind; try solve [eauto with safe_db]; intros _.
  apply update_folder_safe.
Qed.

Lemma deleted_loop_safe : forall l,
  safe same_misc (for_each l (fun f =>
      print "deleting folder" ;;
      execute (delete_folder (del_id f)))).
Proof.
  intros l; apply safe_for_each; try solve [eauto with safe_db]; intros f _.
  apply safe_bind; try solve [eauto with safe_db]; intros _.
  apply delete_folder_safe.
Qed.

Ltac safe_to_anything :=
  eapply safe_weaken; [intros; exact I|].

(** The body of [update_folders] and its four steps. *)
Lemma update_folders_txn : forall db fc st,
  run_update_folders db fc st =
    match (for_each (created fc) (fun f =>
             print "creating folder" ;;
             execute (insert_folder None (ch_id f) (ch_name f) (ch_role f)
                                    (ch_parent_id f) (ch_sort_order f))) ;;
           for_each (updated fc) (fun f =>
             print "updating folder" ;;
             execute (update_folder (ch_name f) (ch_role f) (ch_parent_id f)
                                    (ch_sort_order f) (ch_id f))) ;;
           for_each (deleted fc) (fun f =>
             print "deleting folder" ;;
             execute (delete_folder (del_id f))) ;;
           execute (update_misc st folders_state_key))
          {| conn_db := db; conn_txn := Some db |} with
    | (Ret _, c') => (Ret tt, connect (conn_db c'))
    | (Raise e, _) => (Raise e, connect db)
    end.
Proof.
  intros db fc st. unfold run_update_folders, update_folders.
  apply (sqlite_txn_connect anything).
  repeat (apply safe_bind; try solve [eauto with safe_db]; try intros _);
    safe_to_anything; auto using created_loop_safe, updated_loop_safe, deleted_loop_safe, update_misc_safe.
Qed.

Lemma find_map_same : forall {A} (p : A -> bool) f l,
  (forall x, p (f x) = p x) ->
  find p (map f l) = option_map f (find p l).
Proof.
  induction l as [|x l IH]; simpl; intros Hp; auto.
  rewrite Hp; destruct (p x); auto.
Qed.

Lemma folders_state_update_misc : forall db st db',
  update_misc st folders_state_key db = Ret (db', tt) ->
  folders_state db' = option_map (fun _ => st) (folders_state db).
Proof.
  intros db st db' H. apply with_check_ret in H; inversion H; subst.
  unfold folders_state; simpl.
  rewrite find_map_same.
  - destruct (find _ (misc db)) as [m|] eqn:E; simpl; auto.
    apply find_some in E as [_ E]; rewrite E; reflexivity.
  - intros m; destruct (misc_key m =? folders_state_key) eqn:E; simpl; auto.
Qed.

Lemma execute_ret_inv : forall {A} (s : database -> outcome (database * A)) c a c',
  execute s c = (Ret a, c') -> s (conn_db c) = Ret (conn_db c', a) /\ conn_txn c' = conn_txn c.
Proof.
  unfold execute; intros A s c a c' H.
  destruct (s (conn_db c)) as [[db' a']|e]; inversion H; subst; auto.
Qed.

Lemma folders_state_misc : forall a b, misc a = misc b -> folders_state a = folders_state b.
Proof. unfold folders_state; intros a b H; now rewrite H. Qed.

(** A committed [update_folders] moves the token to the new state (when a
    token row exists) and nothing else in [misc]. *)
Lemma update_folders_commit_token : forall db fc st c',
  run_update_folders db fc st = (Ret tt, c') ->
  folders_state (conn_db c') = option_map (fun _ => st) (folders_state db).
Proof.
  intros db fc st c' H. rewrite update_folders_txn in H.
  match type of H with
  | context [match ?b ?c0 with _ => _ end] => destruct (b c0) as [[u|e] c1] eqn:E
  end; inversion H; subst; simpl.
  apply bind_ret_inv in E as [? [c2 [E1 E]]].
  apply bind_ret_inv in E as [? [c3 [E2 E]]].
  apply bind_ret_inv in E as [? [c4 [E3 E]]].
  destruct (created_loop_safe _ _ _ _ E1) as [_ [M1 _]].
  destruct (updated_loop_safe _ _ _ _ E2) as [_ [M2 _]].
  destruct (deleted_loop_safe _ _ _ _ E3) as [_ [M3 _]].
  apply execute_ret_inv in E as [E _]; destruct u.
  rewrite (folders_state_update_misc _ _ _ E).
  f_equal. apply folders_state_misc.
  unfold same_misc in *; simpl in *; congruence.
Qed.

(** *** The deletion guard of [update_folders] *)




(** *** [save_folders] *)

Lemma save_loop_safe : forall fs id,
  safe same_misc (for_each fs (fun f =>
      execute (insert_folder (Some id) (fi_server_id f) (fi_name f)
                             (fi_role f) (fi_parent_id f) (fi_sort_order f)))).
Proof.
  intros fs id; apply safe_for_each; try solve [eauto with safe_db]; intros f _.
  apply insert_folder_safe.
Qed.

Lemma save_folders_txn : forall db fs st acct,
  run_save_folders db fs st acct =
    match (account_id <- execute (insert_account acct "JMAP") ;;
           for_each fs (fun f =>
             execute (insert_folder (Some account_id) (fi_server_id f) (fi_name f)
                                    (fi_role f) (fi_parent_id f) (fi_sort_order f))) ;;
           execute (insert_misc folders_state_key st))
          {| conn_db := db; conn_txn := Some db |} with
    | (Ret _, c') => (Ret tt, connect (conn_db c'))
    | (Raise e, _) => (Raise e, connect db)
    end.
Proof.
  intros db fs st acct. unfold run_save_folders, save_folders.
  apply (sqlite_txn_connect anything).
  apply safe_bind; try solve [eauto with safe_db].
  - safe_to_anything; apply insert_account_safe.
  - intros id; apply safe_bind; try solve [eauto with safe_db].
    + safe_to_anything; apply save_loop_safe.
    + intros _; safe_to_anything; apply insert_misc_safe.
Qed.

Lemma folders_state_exists : forall db t,
  folders_state db = Some t ->
  existsb (fun m => misc_key m =? folders_state_key) (misc db) = true.
Proof.
  unfold folders_state; intros db t H.
  destruct (find _ (misc db)) as [m|] eqn:E; [|discriminate].
  apply find_some in E as [Hin Hk]. apply existsb_exists; eauto.
Qed.

Lemma insert_misc_dup : forall key v db,
  existsb (fun m => misc_key m =? key) (misc db) = true ->
  exists k, insert_misc key v db = Raise (IntegrityError k).
Proof.
  intros key v db H; unfold insert_misc, with_check; simpl.
  destruct (key =? ""), (v =? ""); simpl; try rewrite H; simpl; eauto.
Qed.

(** *** Python truthiness of a persisted token *)

Lemma folders_state_value : forall db t,
  folders_state db = Some t -> In {| misc_key := folders_state_key; misc_value := t |} (misc db).
Proof.
  unfold folders_state; intros db t H.
  destruct (find _ (misc db)) as [m|] eqn:E; [|discriminate].
  apply find_some in E as [Hin Hk]. inversion H; subst.
  apply String.eqb_eq in Hk. destruct m; simpl in *; subst; auto.
Qed.

(** *** [ORDER BY sort_order, name] *)

Definition ordered (a b : folder_row) : Prop := order_le a b = true.

Lemma order_le_total : forall a b, order_le a b = false -> order_le b a = true.
Proof.
  unfold order_le; intros a b H.
  apply orb_false_iff in H as [H1 H2].
  apply Z.ltb_ge in H1.
  destruct (Z.eq_dec (fr_sort_order a) (fr_sort_order b)) as [Heq|Hne].
  - rewrite Heq, Z.eqb_refl in H2; simpl in H2.
    rewrite Heq, Z.ltb_irrefl, Z.eqb_refl; simpl.
    rewrite String.compare_antisym.
    destruct (String.compare (fr_name a) (fr_name b)); simpl; congruence.
  - apply orb_true_intro; left. apply Z.ltb_lt; lia.
Qed.

Lemma insert_ordered_perm : forall r l, Permutation (insert_ordered r l) (r :: l).
Proof.
  induction l as [|x l IH]; simpl; auto.
  destruct (order_le r x); auto.
  eapply perm_trans; [apply perm_skip, IH | apply perm_swap].
Qed.

Lemma order_by_perm : forall l, Permutation (order_by l) l.
Proof.
  induction l as [|x l IH]; simpl; auto.
  eapply perm_trans; [apply insert_ordered_perm | apply perm_skip, IH].
Qed.

Lemma insert_ordered_sorted : forall r l, Sorted ordered l -> Sorted ordered (insert_ordered r l).
Proof.
  intros r l; induction l as [|x l IH]; simpl; intros H.
  - repeat constructor.
  - inversion H as [|? ? Hl Hhd]; subst.
    destruct (order_le r x) eqn:E.
    + constructor; auto.
    + constructor; [apply IH; auto|].
      destruct l as [|y l]; simpl.
      * constructor; apply order_le_total; exact E.
      * inversion Hhd; subst.
        destruct (order_le r y); constructor; auto.
        apply order_le_total; exact E.
Qed.

Lemma order_by_sorted : forall l, Sorted ordered (order_by l).
Proof.
  induction l as [|x l IH]; simpl; [constructor | now apply insert_ordered_sorted].
Qed.

(** *** Phantom updates *)

Lemma filter_none : forall {A} (f : A -> bool) l,
  (forall x, In x l -> f x = false) -> filter f l = [].
Proof.
  induction l as [|x l IH]; simpl; intros H; auto.
  rewrite H by auto; apply IH; auto.
Qed.

Lemma update_folder_phantom : forall n ro p so u db,
  (forall r, In r (folders db) -> fr_server_id r <> u) ->
  update_folder n ro p so u db = Ret (db, tt).
Proof.
  intros n ro p so u db H. unfold update_folder, with_check; cbv zeta.
  assert (Hm : forall r, In r (folders db) -> (fr_server_id r =? u) = false)
    by (intros r Hr; apply String.eqb_neq; auto).
  rewrite (map_ext_in _ (fun r => r)).
  - rewrite map_id, filter_none by exact Hm. destruct db; reflexivity.
  - intros r Hr; rewrite Hm by exact Hr; reflexivity.
Qed.

Lemma updated_loop_phantom : forall l db,
  (forall f r, In f l -> In r (folders db) -> fr_server_id r <> ch_id f) ->
  for_each l (fun f =>
      print "updating folder" ;;
      execute (update_folder (ch_name f) (ch_role f) (ch_parent_id f)
                             (ch_sort_order f) (ch_id f)))
    {| conn_db := db; conn_txn := Some db |} = (Ret tt, {| conn_db := db; conn_txn := Some db |}).
Proof.
  induction l as [|f l IH]; intros db H; [reflexivity|].
  simpl for_each. unfold bind at 1, bind at 1, print, ret, execute at 1; simpl.
  rewrite update_folder_phantom by (intros r Hr; apply (H f); simpl; auto).
  apply IH; intros g r Hg Hr; apply (H g); simpl; auto.
Qed.

Lemma update_misc_ok : forall st db,
  st <> "" ->
  update_misc st folders_state_key db =
    Ret ({| accounts := accounts db; folders := folders db; misc := map (set_token st) (misc db) |}, tt).
Proof.
  intros st db Hst. unfold update_misc, with_check; cbv zeta.
  replace (forallb _ _) with true; [reflexivity|].
  symmetry; apply forallb_forall; intros x Hx.
  apply filter_In in Hx as [Hx Hk]. apply in_map_iff in Hx as [m [Hm _]]; subst x.
  destruct (misc_key m =? folders_state_key) eqn:E; simpl in *.
  - apply negb_true_iff, String.eqb_neq; exact Hst.
  - rewrite E in Hk; discriminate.
Qed.

(** [update_folders] with an empty diff only moves the token. *)
Lemma empty_diff_commits : forall db st, st <> "" ->
  run_update_folders db {| created := []; deleted := []; updated := [] |} st =
  (Ret tt, connect {| accounts := accounts db; folders := folders db;
                      misc := map (set_token st) (misc db) |}).
Proof.
  intros db st Hst. rewrite update_folders_txn; simpl.
  unfold bind, ret, execute; simpl. rewrite update_misc_ok by exact Hst. reflexivity.
Qed.

(** ** Claims *)

(** C1: [update_folders] is all-or-nothing.  After a call the connection is
    back in autocommit mode; when the call raises, the database is exactly
    the one before the call (folders, accounts and token); when it
    commits, the token row (if any) holds the new state; so the persisted
    token changes only through a committed [update_folders], and then to
    the state passed with the diff. *)
Theorem update_folders_atomic : forall db fc st r c',
  run_update_folders db fc st = (r, c') ->
  conn_txn c' = None /\
  (forall e, r = Raise e -> conn_db c' = db) /\
  (r = Ret tt -> folders_state (conn_db c') = option_map (fun _ => st) (folders_state db)) /\
  (folders_state (conn_db c') <> folders_state db ->
     r = Ret tt /\ folders_state (conn_db c') = Some st).
Proof.
  intros db fc st r c' H.
  assert (Hshape : (r = Ret tt /\ c' = connect (conn_db c')) \/
                   (exists e, r = Raise e /\ c' = connect db)).
  { rewrite update_folders_txn in H.
    match type of H with
    | context [match ?b ?c0 with _ => _ end] => destruct (b c0) as [[u|e] c1]
    end; inversion H; subst; [left | right; eauto]; auto. }
  assert (Htok : r = Ret tt ->
                 folders_state (conn_db c') = option_map (fun _ => st) (folders_state db)).
  { intros ->; now apply (update_folders_commit_token db fc). }
  destruct Hshape as [[-> Hc] | [e [-> Hc]]].
  - split; [|split; [|split]].
    + rewrite Hc; reflexivity.
    + intros e' He'; discriminate.
    + exact Htok.
    + intros Hne; split; [reflexivity|].
      rewrite Htok in * by reflexivity.
      destruct (folders_state db); simpl in *; congruence.
  - subst c'; simpl. split; [|split; [|split]].
    + reflexivity.
    + intros e' _; reflexivity.
    + intros Hr; discriminate.
    + intros Hne; contradiction.
Qed.

Lemma update_folders_atomic_witness :
  run_update_folders db_abc diff_del_A "t2" = (Raise (IntegrityError ForeignKey), connect db_abc) /\
  conn_db (connect db_abc) = db_abc.
Proof.
  assert (H : run_update_folders db_abc diff_del_A "t2"
              = (Raise (IntegrityError ForeignKey), connect db_abc)) by (vm_compute; reflexivity).
  split; [exact H|].
  exact (proj1 (proj2 (update_folders_atomic _ _ _ _ _ H)) _ eq_refl).
Defined.

(** C4: a diff with a created folder is never applied: the INSERT of
    [update_folders] leaves out the NOT NULL column [account_id], so the
    first created folder raises [IntegrityError] and the transaction rolls
    back, leaving folders, accounts and token as they were. *)
Theorem update_folders_created_rejected : forall db fc st,
  created fc <> [] ->
  run_update_folders db fc st =
    (Raise (IntegrityError (NotNull "folders.account_id")), connect db).
Proof.
  intros db fc st Hc. rewrite update_folders_txn.
  destruct (created fc) as [|f l]; [contradiction|].
  reflexivity.
Qed.

Lemma update_folders_created_rejected_witness :
  diff_new_D.(created) <> [] /\
  run_update_folders db_abc diff_new_D "t2" =
    (Raise (IntegrityError (NotNull "folders.account_id")), connect db_abc).
Proof.
  split; [discriminate|].
  apply update_folders_created_rejected; discriminate.
Defined.




(** C6 (as it holds): when a token is already persisted, [save_folders]
    fails with [sqlite3.IntegrityError] (the UNIQUE key of [misc], unless
    an earlier statement already failed) and rolls back: accounts, folders
    and token are left unchanged. *)
Theorem save_folders_when_initialized : forall db fs st acct t,
  folders_state db = Some t ->
  exists k, run_save_folders db fs st acct = (Raise (IntegrityError k), connect db).
Proof.
  intros db fs st acct t Ht. rewrite save_folders_txn.
  set (c0 := {| conn_db := db; conn_txn := Some db |}).
  destruct (execute (insert_account acct "JMAP") c0) as [[id|e] c1] eqn:E1.
  - rewrite (bind_ret _ _ _ _ _ E1).
    destruct (insert_account_safe _ _ _ _ _ E1) as [_ [M1 _]].
    lazymatch goal with
    | |- context [bind ?m2 ?k2 c1] => destruct (m2 c1) as [[u|e] c2] eqn:E2
    end.
    + rewrite (bind_ret _ _ _ _ _ E2).
      destruct (save_loop_safe _ _ _ _ _ E2) as [_ [M2 _]].
      destruct (insert_misc_dup folders_state_key st (conn_db c2)) as [k Hk].
      { unfold same_misc in *; simpl in *; rewrite M2, M1.
        exact (folders_state_exists db t Ht). }
      unfold execute at 1; rewrite Hk; eauto.
    + rewrite (bind_raise _ _ _ _ _ E2).
      destruct (save_loop_safe _ _ _ _ _ E2) as [_ [_ R]].
      destruct (R e eq_refl) as [k ->]; eauto.
  - rewrite (bind_raise _ _ _ _ _ E1).
    destruct (insert_account_safe _ _ _ _ _ E1) as [_ [_ R]].
    destruct (R e eq_refl) as [k ->]; eauto.
Qed.

Lemma save_folders_when_initialized_witness :
  exists k, run_save_folders db_abc [] "t2" "acct2" = (Raise (IntegrityError k), connect db_abc).
Proof.
  apply (save_folders_when_initialized db_abc [] "t2" "acct2" "t1").
  vm_compute; reflexivity.
Defined.

(** C6, refuted as stated: on an initialized mirror [save_folders]
    raises the UNIQUE violation of [misc.key], not a StateConflictError. *)
Lemma save_folders_when_initialized_counterexample :
  folders_state db_abc = Some "t1" /\
  fst (run_save_folders db_abc [] "t2" "acct2") = Raise (IntegrityError (Unique "misc.key")) /\
  fst (run_save_folders db_abc [] "t2" "acct2") <> Raise (PyException "StateConflictError").
Proof. vm_compute; repeat split; discriminate. Qed.

(** C7: [__main__] takes exactly one of two paths, decided by the
    persisted token alone (its value is never empty: CHECK of [misc]).
    Without a token it saves the full [Mailbox/get] listing with its state
    through [save_folders]; with a token [t] it asks for the changes since
    [t] and applies them with the new state through [update_folders]. *)
Theorem main_sync_decision : forall srv db,
  Forall (fun m => misc_value m <> "") (misc db) ->
  (folders_state db = None ->
     main_sync srv (connect db) =
       run_save_folders db (snd (server_get_folders (srv_folders srv)))
                           (fst (server_get_folders (srv_folders srv))) (srv_account_id srv)) /\
  (forall t, folders_state db = Some t ->
     main_sync srv (connect db) =
       run_update_folders db (snd (get_folder_changes (srv_changes srv t)))
                             (fst (get_folder_changes (srv_changes srv t)))).
Proof.
  intros srv db Hok; split.
  - intros Hn. unfold main_sync; simpl. rewrite Hn; simpl.
    destruct (server_get_folders (srv_folders srv)); reflexivity.
  - intros t Ht. unfold main_sync; simpl. rewrite Ht.
    assert (Hne : t <> "").
    { apply folders_state_value in Ht.
      rewrite Forall_forall in Hok; exact (Hok _ Ht). }
    unfold truthy. apply String.eqb_neq in Hne; rewrite Hne; simpl.
    destruct (get_folder_changes (srv_changes srv t)); reflexivity.
Qed.

Lemma main_sync_decision_witness :
  main_sync srv_demo (connect db_abc) =
    run_update_folders db_abc (snd (get_folder_changes resp_rename_A))
                              (fst (get_folder_changes resp_rename_A)) /\
  main_sync srv_demo (connect empty_db) =
    run_save_folders empty_db (snd (server_get_folders (srv_folders srv_demo)))
                              (fst (server_get_folders (srv_folders srv_demo))) "acct".
Proof.
  split.
  - apply (proj2 (main_sync_decision srv_demo db_abc ltac:(vm_compute; repeat constructor; discriminate)) "t1").
    vm_compute; reflexivity.
  - apply (proj1 (main_sync_decision srv_demo empty_db ltac:(constructor))).
    reflexivity.
Defined.

(** C8 (as it holds): for [None] or a non-empty parent id, [get_folders]
    returns, as [{server_id, name}], exactly the folders whose parent is
    that id (the roots for [None]), ordered by [(sort_order, name)]; an
    empty-string parent id is falsy and gives the roots as well.  After
    bootstrapping A (root), B (child of A), C (root), with A before C in
    that order, the roots are [A; C] and the children of A are [B]. *)
Theorem get_folders_children :
  (forall db pid,
     let target := if truthy pid then pid else None in
     exists rows,
       Permutation rows (filter (fun r => opt_eqb (fr_parent_server_id r) target) (folders db)) /\
       Sorted ordered rows /\
       get_folders db pid = map view rows) /\
  fst (run_save_folders empty_db [fA; fB; fC] "t1" "acct") = Ret tt /\
  get_folders db_abc None = [{| fv_server_id := "A"; fv_name := "Archive" |};
                             {| fv_server_id := "C"; fv_name := "Inbox" |}] /\
  get_folders db_abc (Some "A") = [{| fv_server_id := "B"; fv_name := "Bills" |}].
Proof.
  split; [|vm_compute; repeat split].
  intros db pid target. unfold get_folders, target.
  destruct (truthy pid) eqn:T; cbv beta iota;
    [destruct pid as [q|]; [|discriminate] | ];
    match goal with
    | |- context [map view (order_by (filter ?f (folders db)))] =>
        exists (order_by (filter f (folders db)))
    end;
    (split; [|split; [apply order_by_sorted | reflexivity]]);
    (eapply perm_trans; [apply order_by_perm|]);
    (erewrite filter_ext; [apply Permutation_refl|]);
    intros r; unfold opt_eqb; destruct (fr_parent_server_id r); reflexivity.
Qed.

(** C8, refuted as stated: no folder has the parent [""], yet
    [get_folders db_abc (Some "")] returns the roots. *)
Lemma get_folders_children_counterexample :
  filter (fun r => opt_eqb (fr_parent_server_id r) (Some "")) (folders db_abc) = [] /\
  get_folders db_abc (Some "") <> [].
Proof. vm_compute; split; [reflexivity | discriminate]. Qed.

(** C9: for an id with no row, [get_folder] does not return a NotFound
    result: it subscripts the [None] of [fetchone()] and raises
    [TypeError]. *)
Theorem get_folder_missing : forall db id,
  (forall r, In r (folders db) -> fr_server_id r <> id) ->
  get_folder db id = Raise (PyException "TypeError").
Proof.
  intros db id H. unfold get_folder.
  destruct (find _ (folders db)) as [r|] eqn:E; [|reflexivity].
  apply find_some in E as [Hr Hk]. apply String.eqb_eq in Hk.
  exfalso; exact (H r Hr Hk).
Qed.

Lemma get_folder_missing_witness :
  get_folder db_abc "X" = Raise (PyException "TypeError").
Proof.
  apply get_folder_missing.
  vm_compute; intros r [H|[H|[H|[]]]]; subst; discriminate.
Defined.

(** C2 (as it holds): the created folders handed to [update_folders] are
    the objects of the [Mailbox/get] response in the order the server lists
    them; there is no reordering by depth. *)
Theorem get_folder_changes_created_order : forall r,
  created (snd (get_folder_changes r)) =
    (if nonempty (mc_created (resp_changes r))
     then map to_change (mg_list (resp_created r)) else []) /\
  parents_first (created (snd (get_folder_changes r))) =
    (negb (nonempty (mc_created (resp_changes r)))
     || parents_first (map to_change (mg_list (resp_created r)))).
Proof.
  intros r; unfold get_folder_changes; simpl.
  destruct (nonempty (mc_created (resp_changes r))); split; reflexivity.
Qed.

(** C2, refuted as stated: the server lists the child [Q] before its
    parent [P], and so does the created set. *)
Lemma get_folder_changes_created_order_counterexample :
  parents_first (created (snd (get_folder_changes resp_child_first))) = false.
Proof. vm_compute; reflexivity. Qed.

(** C3 (as it holds): [get_folder_changes] always returns [newState] as
    the state that [update_folders] stores; the updated objects of the
    follow-up [Mailbox/get] become the updated set exactly when the
    updated ids are non-empty and [updatedProperties] is falsy ([null] or
    empty); a non-empty property list (in JMAP, only the counts changed)
    gives an empty updated set.  In that skip case, with no created and no
    destroyed ids, a mirror holding a token and a non-empty [newState],
    applying the diff commits, keeps every folder and account row, and
    moves the token to [newState]. *)
Theorem get_folder_changes_updated : forall r,
  fst (get_folder_changes r) = mc_newState (resp_changes r) /\
  (mc_updated (resp_changes r) = [] -> updated (snd (get_folder_changes r)) = []) /\
  (props_truthy (mc_updatedProperties (resp_changes r)) = true ->
     updated (snd (get_folder_changes r)) = []) /\
  (mc_updated (resp_changes r) <> [] ->
   props_truthy (mc_updatedProperties (resp_changes r)) = false ->
     updated (snd (get_folder_changes r)) = map to_change (mg_list (resp_updated r))) /\
  (forall db,
     props_truthy (mc_updatedProperties (resp_changes r)) = true ->
     mc_created (resp_changes r) = [] -> mc_destroyed (resp_changes r) = [] ->
     folders_state db <> None -> mc_newState (resp_changes r) <> "" ->
     exists db',
       run_update_folders db (snd (get_folder_changes r)) (fst (get_folder_changes r))
         = (Ret tt, connect db') /\
       folders db' = folders db /\ accounts db' = accounts db /\
       folders_state db' = Some (mc_newState (resp_changes r))).
Proof.
  intros r; unfold get_folder_changes; simpl.
  split; [reflexivity|]. split; [|split; [|split]].
  - intros H; rewrite H; reflexivity.
  - intros H; rewrite H, andb_false_r; reflexivity.
  - intros H1 H2; rewrite H2.
    destruct (mc_updated (resp_changes r)); [contradiction | reflexivity].
  - intros db Hp Hc Hd Ht Hs. rewrite Hp, Hc, Hd, andb_false_r; simpl.
    rewrite empty_diff_commits by exact Hs.
    eexists; split; [reflexivity|]. simpl; split; [reflexivity|]; split; [reflexivity|].
    destruct (folders_state db) as [t|] eqn:E; [|contradiction].
    rewrite (folders_state_update_misc db _ _ (update_misc_ok _ db Hs)), E; reflexivity.
Qed.

Lemma get_folder_changes_updated_witness :
  updated (snd (get_folder_changes resp_rename_A)) = [to_change mb_A_renamed] /\
  exists db',
    run_update_folders db_abc (snd (get_folder_changes resp_counts_A))
                       (fst (get_folder_changes resp_counts_A)) = (Ret tt, connect db') /\
    folders db' = folders db_abc /\ accounts db' = accounts db_abc /\
    folders_state db' = Some "t2".
Proof.
  split.
  - apply (proj1 (proj2 (proj2 (proj2 (get_folder_changes_updated resp_rename_A))))).
    + discriminate.
    + reflexivity.
  - apply (proj2 (proj2 (proj2 (proj2 (get_folder_changes_updated resp_counts_A))))).
    + reflexivity.
    + reflexivity.
    + reflexivity.
    + vm_compute; discriminate.
    + discriminate.
Defined.

(** C3, refuted as stated: updated ids without a property list give a
    non-empty updated set, and applying the diff renames [A]. *)
Lemma get_folder_changes_updated_counterexample :
  mc_updated (resp_changes resp_rename_A) = ["A"] /\
  mc_updatedProperties (resp_changes resp_rename_A) = None /\
  updated (snd (get_folder_changes resp_rename_A)) <> [] /\
  get_folder (conn_db (snd (run_update_folders db_abc (snd (get_folder_changes resp_rename_A))
                                               (fst (get_folder_changes resp_rename_A))))) "A"
    = Ret {| ref_id := "A"; ref_name := "Old mail" |}.
Proof. vm_compute; repeat split; discriminate. Qed.

(** C10: an update for an id with no row touches nothing: with no created
    and no destroyed folders and only such updates, [update_folders]
    commits, every folder and account row is unchanged, and the only
    change is the token row, which now holds the new state. *)
Theorem update_folders_phantom_update : forall db fc st,
  created fc = [] -> deleted fc = [] ->
  (forall f r, In f (updated fc) -> In r (folders db) -> fr_server_id r <> ch_id f) ->
  folders_state db <> None -> st <> "" ->
  exists db',
    run_update_folders db fc st = (Ret tt, connect db') /\
    folders db' = folders db /\ accounts db' = accounts db /\
    misc db' = map (set_token st) (misc db) /\
    folders_state db' = Some st.
Proof.
  intros db fc st Hc Hd Hu Ht Hst.
  rewrite update_folders_txn, Hc, Hd.
  set (c0 := {| conn_db := db; conn_txn := Some db |}).
  rewrite (bind_ret _ _ c0 tt c0) by reflexivity.
  rewrite (bind_ret _ _ c0 tt c0) by (apply updated_loop_phantom; exact Hu).
  rewrite (bind_ret _ _ c0 tt c0) by reflexivity.
  unfold execute; simpl conn_db. rewrite (update_misc_ok st db Hst).
  eexists; split; [reflexivity|]. simpl; repeat split.
  destruct (folders_state db) as [t|] eqn:E; [|contradiction].
  assert (H : update_misc st folders_state_key db =
              Ret ({| accounts := accounts db; folders := folders db;
                      misc := map (set_token st) (misc db) |}, tt))
    by (apply update_misc_ok; exact Hst).
  rewrite (folders_state_update_misc _ _ _ H), E; reflexivity.
Qed.

Lemma update_folders_phantom_update_witness :
  exists db',
    run_update_folders db_abc diff_phantom "t2" = (Ret tt, connect db') /\
    folders db' = folders db_abc /\ accounts db' = accounts db_abc /\
    misc db' = map (set_token "t2") (misc db_abc) /\
    folders_state db' = Some "t2".
Proof.
  apply update_folders_phantom_update; try reflexivity.
  - intros f r Hf Hr. vm_compute in Hf, Hr.
    destruct Hf as [<-|[]]. destruct Hr as [<-|[<-|[<-|[]]]]; discriminate.
  - vm_compute; discriminate.
  - discriminate.
Defined.

(** ** Further properties of [Storage] *)

(** *** Every statement keeps the constraints of the schema *)

Lemma with_check_ok : forall {A} cs (r r' : database * A),
  with_check cs r = Ret r' -> r' = r /\ forallb fst cs = true.
Proof.
  unfold with_check; intros A cs r r' H.
  destruct (constraints cs) eqn:Hc; inversion H; subst; split; auto.
  clear H. induction cs as [|[ok c] cs IH]; simpl in *; auto.
  destruct ok; [now apply IH | discriminate].
Qed.

Lemma existsb_sid : forall (P : string -> bool) rows,
  existsb (fun q => P (fr_server_id q)) rows = existsb P (map fr_server_id rows).
Proof. induction rows as [|r rows IH]; simpl; congruence. Qed.

Lemma parent_fk_ok_sids : forall rows1 rows2 r,
  map fr_server_id rows1 = map fr_server_id rows2 ->
  parent_fk_ok rows1 r = parent_fk_ok rows2 r.
Proof.
  unfold parent_fk_ok; intros rows1 rows2 r H.
  destruct (fr_parent_server_id r) as [p|]; auto.
  rewrite (existsb_sid (fun s => s =? p)), (existsb_sid (fun s => s =? p)), H; reflexivity.
Qed.

Lemma parent_fk_ok_app : forall rows l r,
  parent_fk_ok rows r = true -> parent_fk_ok (rows ++ l) r = true.
Proof.
  unfold parent_fk_ok; intros rows l r H.
  destruct (fr_parent_server_id r); auto. rewrite existsb_app, H; reflexivity.
Qed.

Lemma existsb_sid_In : forall rows x,
  In x (map fr_server_id rows) -> existsb (fun q => fr_server_id q =? x) rows = true.
Proof.
  intros rows x H. apply in_map_iff in H as [q [Hq Hin]].
  apply existsb_exists; exists q; split; auto. subst; apply String.eqb_refl.
Qed.

Lemma NoDup_map_filter : forall {A B} (f : A -> B) p l,
  NoDup (map f l) -> NoDup (map f (filter p l)).
Proof.
  induction l as [|a l IH]; simpl; intros H; auto.
  inversion H; subst. destruct (p a); simpl; auto.
  constructor; auto. intros Hin; apply H2.
  apply in_map_iff in Hin as [b [Hb Hin]]; apply filter_In in Hin as [Hin _].
  rewrite <- Hb; apply in_map; exact Hin.
Qed.

Lemma Forall_filter_sub : forall {A} (P : A -> Prop) p l,
  Forall P l -> Forall P (filter p l).
Proof.
  intros A P p l H; rewrite Forall_forall in *; intros x Hx.
  apply filter_In in Hx as [Hx _]; auto.
Qed.

Lemma negb_eqb_true : forall s t, negb (s =? t) = true -> s <> t.
Proof. intros s t H; apply negb_true_iff, String.eqb_neq in H; exact H. Qed.

Lemma wf_step_refl : forall db, wf_step db db.
Proof. unfold wf_step; auto. Qed.

Lemma wf_step_trans : forall a b c, wf_step a b -> wf_step b c -> wf_step a c.
Proof. unfold wf_step; auto. Qed.

#[local] Hint Resolve wf_step_refl wf_step_trans : safe_db.

Ltac stmt_wf :=
  apply safe_execute;
  [ apply wf_step_refl
  | intros ? ? ? Hs Hwf; apply with_check_ok in Hs as [Heq Hc]; inversion Heq; subst;
    simpl in Hc; repeat rewrite andb_true_iff in Hc
  | intros ? ? Hs; eapply with_check_raise; exact Hs ].

Lemma insert_account_wf : forall n t, safe wf_step (execute (insert_account n t)).
Proof. intros; stmt_wf. exact Hwf. Qed.

Lemma insert_folder_wf : forall a s n ro p so,
  safe wf_step (execute (insert_folder a s n ro p so)).
Proof.
  intros a s n ro p so; stmt_wf.
  destruct Hc as [Ha [Hs [Hn [Hp [Hu [Hacc [Hfk _]]]]]]].
  destruct Hwf as [[Hnd [Hfks Hrows]] Hm]; split; [|exact Hm]; simpl.
  split; [|split].
  - rewrite map_app; simpl.
    apply (Permutation_NoDup (Permutation_cons_append _ _)).
    constructor; auto. intros Hin.
    rewrite (existsb_sid_In _ _ Hin) in Hu; discriminate.
  - intros r Hr; apply in_app_or in Hr as [Hr|[<-|[]]].
    + apply parent_fk_ok_app; auto.
    + exact Hfk.
  - apply Forall_app; split; auto. constructor; auto.
    repeat split; simpl; auto using negb_eqb_true.
    destruct a; [discriminate | discriminate Ha].
Qed.

Lemma update_folder_wf : forall n ro p so u,
  safe wf_step (execute (update_folder n ro p so u)).
Proof.
  intros n ro p so u; stmt_wf.
  change (fun r => if fr_server_id r =? u then _ else r) with (upd_row n ro p so u) in *.
  destruct Hc as [Hn [Hp [Hfk _]]].
  rewrite forallb_forall in Hn, Hp, Hfk.
  destruct Hwf as [[Hnd [Hfks Hrows]] Hm]; split; [|exact Hm]; simpl.
  assert (Hsids : map fr_server_id (map (upd_row n ro p so u) (folders db))
                  = map fr_server_id (folders db)).
  { rewrite map_map; apply map_ext; intros r; unfold upd_row.
    destruct (fr_server_id r =? u); reflexivity. }
  assert (Hchanged : forall r, In r (folders db) -> (fr_server_id r =? u) = true ->
           In (upd_row n ro p so u r)
              (filter (fun r => fr_server_id r =? u) (map (upd_row n ro p so u) (folders db)))).
  { intros r Hr Hh; apply filter_In; split; [apply in_map; exact Hr|].
    unfold upd_row; rewrite Hh; simpl; exact Hh. }
  rewrite Forall_forall in Hrows.
  split; [|split].
  - rewrite Hsids; exact Hnd.
  - intros r' Hr'; apply in_map_iff in Hr' as [r [<- Hr]].
    destruct (fr_server_id r =? u) eqn:Hh.
    + apply Hfk, Hchanged; auto.
    + rewrite (parent_fk_ok_sids _ (folders db)) by exact Hsids.
      unfold upd_row; rewrite Hh; auto.
  - apply Forall_forall; intros r' Hr'; apply in_map_iff in Hr' as [r [<- Hr]].
    destruct (Hrows r Hr) as [Ha [Hs [Hn0 Hp0]]].
    destruct (fr_server_id r =? u) eqn:Hh.
    + pose proof (Hchanged r Hr Hh) as Hc.
      specialize (Hn _ Hc); specialize (Hp _ Hc).
      unfold upd_row in *; rewrite Hh in *; simpl in *.
      repeat split; auto using negb_eqb_true.
    + unfold upd_row; rewrite Hh; repeat split; auto.
Qed.

Lemma existsb_key_In : forall {A} (f : A -> string) l x,
  In x (map f l) -> existsb (fun q => f q =? x) l = true.
Proof.
  intros A f l x H. apply in_map_iff in H as [q [Hq Hin]].
  apply existsb_exists; exists q; split; auto. subst; apply String.eqb_refl.
Qed.

Lemma existsb_false_In : forall {A} (p : A -> bool) l x,
  existsb p l = false -> In x l -> p x = false.
Proof.
  intros A p l x H Hin. destruct (p x) eqn:E; auto.
  rewrite (proj2 (existsb_exists p l) (ex_intro _ x (conj Hin E))) in H; discriminate.
Qed.

Lemma delete_folder_wf : forall u, safe wf_step (execute (delete_folder u)).
Proof.
  intros u; stmt_wf.
  destruct Hc as [Hc _]; apply negb_true_iff in Hc.
  destruct Hwf as [[Hnd [Hfks Hrows]] Hm]; split; [|exact Hm]; simpl.
  split; [|split].
  - apply NoDup_map_filter; exact Hnd.
  - intros r Hr. apply filter_In in Hr as [Hr Hkr].
    specialize (Hfks r Hr); unfold parent_fk_ok in *.
    destruct (fr_parent_server_id r) as [p|] eqn:Ep; auto.
    apply existsb_exists in Hfks as [q [Hq Hqp]].
    apply existsb_exists.
    destruct (fr_server_id q =? u) eqn:Hqu.
    + assert (Hg : In q (filter (fun r => fr_server_id r =? u) (folders db)))
        by (apply filter_In; auto).
      pose proof (existsb_false_In _ _ _ Hc Hg) as Ho; simpl in Ho.
      apply andb_false_iff in Ho as [Ho|Ho].
      * apply negb_false_iff, existsb_exists in Ho as [k [Hk Hkq]].
        exists k; split; auto.
        apply String.eqb_eq in Hkq, Hqp; rewrite Hkq, Hqp; apply String.eqb_refl.
      * exfalso. assert (Hr' : In r (filter (fun r => negb (fr_server_id r =? u)) (folders db)))
          by (apply filter_In; auto).
        pose proof (existsb_false_In _ _ _ Ho Hr') as Hx; simpl in Hx.
        rewrite Ep in Hx; simpl in Hx. apply String.eqb_eq in Hqp.
        rewrite Hqp, String.eqb_refl in Hx; discriminate.
    + exists q; split; auto. apply filter_In; split; auto. rewrite Hqu; reflexivity.
  - apply Forall_filter_sub; exact Hrows.
Qed.

Lemma insert_misc_wf : forall k v, safe wf_step (execute (insert_misc k v)).
Proof.
  intros k v; stmt_wf.
  destruct Hc as [_ [Hv [Hu _]]].
  destruct Hwf as [Hf [Hnd Hvals]]; split; [exact Hf|]; simpl.
  split.
  - rewrite map_app; simpl.
    apply (Permutation_NoDup (Permutation_cons_append _ _)).
    constructor; auto. intros Hin.
    rewrite (existsb_key_In _ _ _ Hin) in Hu; discriminate.
  - apply Forall_app; split; auto. constructor; auto. simpl; auto using negb_eqb_true.
Qed.

Lemma update_misc_wf : forall v k, safe wf_step (execute (update_misc v k)).
Proof.
  intros v k; stmt_wf.
  destruct Hc as [Hv _]; rewrite forallb_forall in Hv.
  destruct Hwf as [Hf [Hnd Hvals]]; split; [exact Hf|]; simpl.
  rewrite Forall_forall in Hvals.
  split.
  - rewrite map_map. erewrite map_ext; [exact Hnd|].
    intros m; destruct (misc_key m =? k); reflexivity.
  - apply Forall_forall; intros m' Hm'; apply in_map_iff in Hm' as [m [<- Hm]].
    destruct (misc_key m =? k) eqn:Hk; auto.
    apply negb_eqb_true, Hv, filter_In; split.
    + apply in_map_iff; exists m; rewrite Hk; auto.
    + simpl; exact Hk.
Qed.

Lemma delete_misc_wf : forall k, safe wf_step (execute (delete_misc k)).
Proof.
  intros k; apply safe_execute; [apply wf_step_refl| |].
  - intros db db' u Hs Hwf; inversion Hs; subst.
    destruct Hwf as [Hf [Hnd Hvals]]; split; [exact Hf|]; simpl.
    split; [apply NoDup_map_filter; exact Hnd | apply Forall_filter_sub; exact Hvals].
  - intros db e Hs; discriminate.
Qed.

(** [DELETE FROM folders] never trips the foreign key: no row is kept. *)
Lemma delete_all_folders_ok : forall db,
  delete_all_folders db =
    Ret ({| accounts := accounts db; folders := []; misc := misc db |}, tt).
Proof.
  intros db; unfold delete_all_folders, with_check; simpl.
  replace (existsb _ (folders db)) with false; [reflexivity|].
  induction (folders db); simpl; auto.
Qed.

Lemma delete_all_folders_wf : safe wf_step (execute delete_all_folders).
Proof.
  apply safe_execute; [apply wf_step_refl| |].
  - intros db db' u Hs Hwf; rewrite delete_all_folders_ok in Hs; inversion Hs; subst.
    destruct Hwf as [_ Hm]; split; [|exact Hm]; simpl.
    split; [constructor | split; [intros r []| constructor]].
  - intros db e Hs; rewrite delete_all_folders_ok in Hs; discriminate.
Qed.

(** A transaction whose body keeps the constraints commits a database
    that keeps them, or restores the starting one. *)
Lemma txn_wf : forall body db,
  safe wf_step body -> wf db -> wf (conn_db (snd (sqlite_txn body (connect db)))).
Proof.
  intros body db Hs Hwf. rewrite (sqlite_txn_connect wf_step) by exact Hs.
  destruct (body {| conn_db := db; conn_txn := Some db |}) as [[u|e] c'] eqn:E;
    simpl; auto.
  destruct (Hs _ _ _ E) as [_ [Hq _]]; apply Hq; exact Hwf.
Qed.

Lemma save_body_wf : forall fs st acct,
  safe wf_step (
    account_id <- execute (insert_account acct "JMAP") ;;
    for_each fs (fun f =>
      execute (insert_folder (Some account_id) (fi_server_id f) (fi_name f)
                             (fi_role f) (fi_parent_id f) (fi_sort_order f))) ;;
    execute (insert_misc folders_state_key st)).
Proof.
  intros fs st acct.
  apply safe_bind; try solve [eauto with safe_db]; [apply insert_account_wf|]; intros id.
  apply safe_bind; try solve [eauto with safe_db]; [|intros _; apply insert_misc_wf].
  apply safe_for_each; try solve [eauto with safe_db]; intros f _; apply insert_folder_wf.
Qed.

Lemma update_body_wf : forall fc st,
  safe wf_step (
    for_each (created fc) (fun f =>
      print "creating folder" ;;
      execute (insert_folder None (ch_id f) (ch_name f) (ch_role f)
                             (ch_parent_id f) (ch_sort_order f))) ;;
    for_each (updated fc) (fun f =>
      print "updating folder" ;;
      execute (update_folder (ch_name f) (ch_role f) (ch_parent_id f)
                             (ch_sort_order f) (ch_id f))) ;;
    for_each (deleted fc) (fun f =>
      print "deleting folder" ;;
      execute (delete_folder (del_id f))) ;;
    execute (update_misc st folders_state_key)).
Proof.
  intros fc st.
  repeat (apply safe_bind; try solve [eauto with safe_db]; try intros _);
    try (apply safe_for_each; try solve [eauto with safe_db]; intros f _;
         apply safe_bind; try solve [eauto with safe_db]; intros _);
    auto using insert_folder_wf, update_folder_wf, delete_folder_wf, update_misc_wf.
Qed.

Lemma save_folders_wf : forall db fs st acct,
  wf db -> wf (conn_db (snd (run_save_folders db fs st acct))).
Proof. intros; apply txn_wf; auto using save_body_wf. Qed.

Lemma update_folders_wf : forall db fc st,
  wf db -> wf (conn_db (snd (run_update_folders db fc st))).
Proof. intros; apply txn_wf; auto using update_body_wf. Qed.

Lemma delete_folders_wf : forall db,
  wf db -> wf (conn_db (snd (run_delete_folders db))).
Proof.
  intros; apply txn_wf; auto.
  apply safe_bind; try solve [eauto with safe_db];
    [apply delete_misc_wf | intros _; apply delete_all_folders_wf].
Qed.

Lemma wf_empty_db : wf empty_db.
Proof.
  split; split; simpl; [constructor | split; [intros r [] | constructor] | constructor | constructor].
Qed.

Lemma wf_of_reachable : forall db, reachable db -> wf db.
Proof.
  induction 1; auto using wf_empty_db, save_folders_wf, update_folders_wf, delete_folders_wf.
Qed.

(** *** What a transaction leaves behind *)

Lemma txn_rel : forall (Q : database -> database -> Prop) body db,
  (forall d, Q d d) -> safe Q body -> Q db (conn_db (snd (sqlite_txn body (connect db)))).
Proof.
  intros Q body db Hr Hs. rewrite (sqlite_txn_connect Q) by exact Hs.
  destruct (body {| conn_db := db; conn_txn := Some db |}) as [[u|e] c'] eqn:E;
    simpl; auto.
  destruct (Hs _ _ _ E) as [_ [Hq _]]; exact Hq.
Qed.

Lemma txn_raise_restores : forall Q body db e c',
  safe Q body -> sqlite_txn body (connect db) = (Raise e, c') -> c' = connect db.
Proof.
  intros Q body db e c' Hs H. rewrite (sqlite_txn_connect Q) in H by exact Hs.
  destruct (body {| conn_db := db; conn_txn := Some db |}) as [[u|e'] c''];
    inversion H; auto.
Qed.

Lemma find_filter_negb : forall {A} (p : A -> bool) l,
  find p (filter (fun x => negb (p x)) l) = None.
Proof.
  induction l as [|x l IH]; simpl; auto.
  destruct (p x) eqn:E; simpl; auto. rewrite E; exact IH.
Qed.

Lemma insert_account_taken : forall acct db,
  existsb (fun a => acc_name a =? acct) (accounts db) = true ->
  exists k, insert_account acct "JMAP" db = Raise (IntegrityError k).
Proof.
  intros acct db H; unfold insert_account, with_check; simpl.
  destruct (acct =? ""); simpl; [eauto|]. rewrite H; simpl; eauto.
Qed.

Lemma no_new_folder_refl : forall d, no_new_folder d d.
Proof. split; [apply incl_refl | reflexivity]. Qed.

Lemma no_new_folder_trans : forall a b c,
  no_new_folder a b -> no_new_folder b c -> no_new_folder a c.
Proof.
  unfold no_new_folder; intros a b c [H1 A1] [H2 A2]; split; [eapply incl_tran; eauto | congruence].
Qed.

#[local] Hint Resolve no_new_folder_refl no_new_folder_trans : safe_db.

Lemma update_body_no_new_folder : forall fc st,
  safe no_new_folder (
    for_each (created fc) (fun f =>
      print "creating folder" ;;
      execute (insert_folder None (ch_id f) (ch_name f) (ch_role f)
                             (ch_parent_id f) (ch_sort_order f))) ;;
    for_each (updated fc) (fun f =>
      print "updating folder" ;;
      execute (update_folder (ch_name f) (ch_role f) (ch_parent_id f)
                             (ch_sort_order f) (ch_id f))) ;;
    for_each (deleted fc) (fun f =>
      print "deleting folder" ;;
      execute (delete_folder (del_id f))) ;;
    execute (update_misc st folders_state_key)).
Proof.
  intros fc st.
  repeat (apply safe_bind; try solve [eauto with safe_db]; try intros _);
    try (apply safe_for_each; try solve [eauto with safe_db]; intros f _;
         apply safe_bind; try solve [eauto with safe_db]; intros _);
    (apply safe_execute;
     [ apply no_new_folder_refl
     | intros ? ? ? Hs; apply with_check_ok in Hs as [Heq Hc]; inversion Heq; subst
     | intros ? ? Hs; eapply with_check_raise; exact Hs ]).
  - discriminate Hc.
  - split; [|reflexivity]; simpl. rewrite map_map.
    erewrite map_ext; [apply incl_refl|]. intros r; destruct (fr_server_id r =? ch_id f); reflexivity.
  - split; [|reflexivity]; simpl. intros s Hs.
    apply in_map_iff in Hs as [r [<- Hr]]; apply filter_In in Hr as [Hr _]; apply in_map; exact Hr.
  - split; [apply incl_refl | reflexivity].
Qed.

(** *** [save_folders] on a fresh mirror *)

Lemma constraints_ok : forall cs, forallb fst cs = true -> constraints cs = Ret tt.
Proof.
  induction cs as [|[ok c] cs IH]; simpl; intros H; auto.
  apply andb_true_iff in H as [H1 H2]; rewrite H1; auto.
Qed.

Lemma with_check_pass : forall {A} cs (r : database * A),
  forallb fst cs = true -> with_check cs r = Ret r.
Proof. unfold with_check; intros A cs r H; rewrite constraints_ok; auto. Qed.

Lemma insert_folder_ok : forall id f db,
  existsb (fun x => acc_id x =? id)%Z (accounts db) = true ->
  negb (fi_server_id f =? "") = true -> negb (fi_name f =? "") = true ->
  opt_nonempty (fi_parent_id f) = true ->
  existsb (fun s => s =? fi_server_id f) (map fr_server_id (folders db)) = false ->
  match fi_parent_id f with
  | Some p => existsb (fun s => s =? p) (map fr_server_id (folders db) ++ [fi_server_id f])
  | None => true
  end = true ->
  insert_folder (Some id) (fi_server_id f) (fi_name f) (fi_role f) (fi_parent_id f)
                (fi_sort_order f) db =
  Ret ({| accounts := accounts db;
          folders := folders db ++ [row_of id (next_rowid (map fr_id (folders db))) f];
          misc := misc db |}, tt).
Proof.
  intros id f db Hacc Hs Hn Hp Hu Hfk.
  unfold insert_folder; apply with_check_pass; simpl.
  rewrite Hacc, Hs, Hn, Hp.
  rewrite (existsb_sid (fun s => s =? fi_server_id f)), Hu; simpl.
  unfold parent_fk_ok; simpl.
  destruct (fi_parent_id f) as [p|]; auto.
  rewrite (existsb_sid (fun s => s =? p)), map_app; simpl; rewrite Hfk; reflexivity.
Qed.

Lemma save_loop_run : forall fs id c,
  existsb (fun x => acc_id x =? id)%Z (accounts (conn_db c)) = true ->
  inserts_ok (map fr_server_id (folders (conn_db c))) fs = true ->
  exists rows,
    for_each fs (fun f =>
      execute (insert_folder (Some id) (fi_server_id f) (fi_name f)
                             (fi_role f) (fi_parent_id f) (fi_sort_order f))) c =
      (Ret tt, {| conn_db := {| accounts := accounts (conn_db c);
                                folders := folders (conn_db c) ++ rows;
                                misc := misc (conn_db c) |};
                  conn_txn := conn_txn c |}) /\
    Forall2 (fun f r => r = row_of id (fr_id r) f) fs rows.
Proof.
  induction fs as [|f fs IH]; intros id c Hacc Hok; simpl.
  - exists []; split; auto. rewrite app_nil_r; destruct c as [[a fl m] t]; reflexivity.
  - simpl in Hok. repeat rewrite andb_true_iff in Hok.
    destruct Hok as [[[[[Hs Hn] Hp] Hu] Hfk] Hrest].
    apply negb_true_iff in Hu.
    unfold bind at 1, execute at 1.
    rewrite (insert_folder_ok id f (conn_db c)) by auto.
    set (r := row_of id (next_rowid (map fr_id (folders (conn_db c)))) f).
    destruct (IH id {| conn_db := {| accounts := accounts (conn_db c);
                                     folders := folders (conn_db c) ++ [r];
                                     misc := misc (conn_db c) |};
                       conn_txn := conn_txn c |}) as [rows [Hrun Hrows]]; simpl.
    + exact Hacc.
    + rewrite map_app; exact Hrest.
    + exists (r :: rows); split.
      * rewrite Hrun; simpl; rewrite <- app_assoc; reflexivity.
      * constructor; auto.
Qed.

Lemma folders_state_none : forall db,
  folders_state db = None ->
  existsb (fun m => misc_key m =? folders_state_key) (misc db) = false.
Proof.
  unfold folders_state; intros db H.
  destruct (find _ (misc db)) eqn:E; [discriminate|].
  apply not_true_iff_false; intros Hx; apply existsb_exists in Hx as [m [Hin Hm]].
  rewrite (find_none _ _ E m Hin) in Hm; discriminate.
Qed.

Lemma find_app_none : forall {A} (p : A -> bool) l1 l2,
  find p l1 = None -> find p (l1 ++ l2) = find p l2.
Proof.
  induction l1 as [|x l1 IH]; simpl; intros l2 H; auto.
  destruct (p x); [discriminate | auto].
Qed.

Lemma folders_state_appended : forall db st,
  folders_state db = None ->
  folders_state {| accounts := accounts db; folders := folders db;
                   misc := misc db ++ [{| misc_key := folders_state_key; misc_value := st |}] |}
  = Some st.
Proof.
  unfold folders_state; intros db st H; simpl.
  destruct (find _ (misc db)) eqn:E; [discriminate|].
  rewrite find_app_none by exact E; reflexivity.
Qed.

Lemma save_folders_commits : forall db fs st acct,
  folders_state db = None -> acct <> "" ->
  existsb (fun a => acc_name a =? acct) (accounts db) = false -> st <> "" ->
  inserts_ok (map fr_server_id (folders db)) fs = true ->
  exists aid rows,
    run_save_folders db fs st acct =
      (Ret tt, connect {| accounts := accounts db ++ [{| acc_id := aid; acc_name := acct;
                                                         acc_type := "JMAP" |}];
                          folders := folders db ++ rows;
                          misc := misc db ++ [{| misc_key := folders_state_key;
                                                 misc_value := st |}] |}) /\
    Forall2 (fun f r => r = row_of aid (fr_id r) f) fs rows.
Proof.
  intros db fs st acct Hst Ha Hu Hs Hok. rewrite save_folders_txn.
  set (aid := next_rowid (map acc_id (accounts db))).
  set (db1 := {| accounts := accounts db ++ [{| acc_id := aid; acc_name := acct;
                                                acc_type := "JMAP" |}];
                 folders := folders db; misc := misc db |}).
  assert (E1 : execute (insert_account acct "JMAP") {| conn_db := db; conn_txn := Some db |}
                = (Ret aid, {| conn_db := db1; conn_txn := Some db |})).
  { unfold execute, insert_account; rewrite with_check_pass; [reflexivity|]; simpl.
    apply String.eqb_neq in Ha; rewrite Ha, Hu; reflexivity. }
  rewrite (bind_ret _ _ _ _ _ E1).
  destruct (save_loop_run fs aid {| conn_db := db1; conn_txn := Some db |})
    as [rows [Hrun Hrows]]; simpl.
  - rewrite existsb_app; simpl; rewrite Z.eqb_refl, orb_true_r; reflexivity.
  - exact Hok.
  - exists aid, rows; split; auto.
    rewrite (bind_ret _ _ _ _ _ Hrun); unfold execute, insert_misc; simpl.
    rewrite with_check_pass; [reflexivity|]; simpl.
    apply String.eqb_neq in Hs; rewrite Hs, (folders_state_none db Hst); reflexivity.
Qed.

Lemma inserts_ok_fresh : forall fs known,
  inserts_ok known fs = true ->
  NoDup (map fi_server_id fs) /\ (forall x, In x (map fi_server_id fs) -> ~ In x known).
Proof.
  induction fs as [|f fs IH]; simpl; intros known Hok.
  - split; [constructor | tauto].
  - repeat rewrite andb_true_iff in Hok.
    destruct Hok as [[[[[_ _] _] Hu] _] Hrest].
    apply negb_true_iff in Hu.
    destruct (IH _ Hrest) as [Hnd Hfr].
    assert (Hnk : ~ In (fi_server_id f) known).
    { intros Hin. rewrite (existsb_key_In (fun s => s) known _) in Hu;
        [discriminate | rewrite map_id; exact Hin]. }
    split.
    + constructor; auto. intros Hin; apply (Hfr _ Hin), in_or_app; right; left; auto.
    + intros x [<-|Hin]; auto. intros Hk; apply (Hfr _ Hin), in_or_app; left; auto.
Qed.

Lemma Forall2_saved_sids : forall aid fs rows,
  Forall2 (fun f r => r = row_of aid (fr_id r) f) fs rows ->
  map fr_server_id rows = map fi_server_id fs.
Proof.
  induction 1 as [|f r fs rows Hr _ IH]; simpl; auto.
  rewrite IH; f_equal. rewrite Hr; reflexivity.
Qed.

Lemma find_saved : forall aid fs rows f,
  Forall2 (fun f r => r = row_of aid (fr_id r) f) fs rows ->
  NoDup (map fi_server_id fs) -> In f fs ->
  exists r, find (fun r => fr_server_id r =? fi_server_id f) rows = Some r /\
            fr_server_id r = fi_server_id f /\ fr_name r = fi_name f.
Proof.
  intros aid fs rows f H; induction H as [|f0 r0 fs rows Hr H IH]; simpl; intros Hnd Hin;
    [contradiction|].
  inversion Hnd as [|? ? Hn0 Hnd']; subst.
  assert (Hs0 : fr_server_id r0 = fi_server_id f0) by (rewrite Hr; reflexivity).
  assert (Hn0' : fr_name r0 = fi_name f0) by (rewrite Hr; reflexivity).
  rewrite Hs0.
  destruct (fi_server_id f0 =? fi_server_id f) eqn:E.
  - apply String.eqb_eq in E. exists r0; repeat split; [congruence|].
    destruct Hin as [<-|Hin]; auto.
    exfalso; apply Hn0; rewrite E; apply in_map; exact Hin.
  - destruct Hin as [<-|Hin]; [rewrite String.eqb_refl in E; discriminate|].
    exact (IH Hnd' Hin).
Qed.

(** *** The other constraints of the schema *)

Lemma le_fold_max : forall ids x, In x ids -> (x <= fold_right Z.max 0 ids)%Z.
Proof.
  induction ids as [|i ids IH]; simpl; intros x H; [contradiction|].
  destruct H as [<-|H]; [apply Z.le_max_l|].
  eapply Z.le_trans; [apply IH; exact H | apply Z.le_max_r].
Qed.

Lemma next_rowid_fresh : forall ids, ~ In (next_rowid ids) ids.
Proof.
  intros ids H; apply le_fold_max in H; unfold next_rowid in H; lia.
Qed.

Lemma NoDup_snoc : forall {A} (l : list A) x, NoDup l -> ~ In x l -> NoDup (l ++ [x]).
Proof.
  intros A l x H Hx.
  apply (Permutation_NoDup (Permutation_cons_append _ _)); constructor; auto.
Qed.

Lemma rest_step_refl : forall db, rest_step db db.
Proof. unfold rest_step; auto. Qed.

Lemma rest_step_trans : forall a b c, rest_step a b -> rest_step b c -> rest_step a c.
Proof. unfold rest_step; auto. Qed.

#[local] Hint Resolve rest_step_refl rest_step_trans : safe_db.

Ltac stmt_rest :=
  apply safe_execute;
  [ apply rest_step_refl
  | intros ? ? ? Hs [Hids [Hnames [Haccs [Hfids [Hfk Hkeys]]]]];
    apply with_check_ok in Hs as [Heq Hc]; inversion Heq; subst;
    simpl in Hc; repeat rewrite andb_true_iff in Hc;
    split; [|split; [|split; [|split; [|split]]]]; simpl
  | intros ? ? Hs; eapply with_check_raise; exact Hs ].

Lemma insert_account_rest : forall n t, safe rest_step (execute (insert_account n t)).
Proof.
  intros n t; stmt_rest; destruct Hc as [Hn [Ht [Hu _]]].
  - rewrite map_app; apply NoDup_snoc; [exact Hids | apply next_rowid_fresh].
  - rewrite map_app; apply NoDup_snoc; auto. simpl; intros Hin.
    rewrite (existsb_key_In acc_name _ _ Hin) in Hu; discriminate.
  - apply Forall_app; split; auto. constructor; auto. split; simpl; auto using negb_eqb_true.
    repeat rewrite orb_true_iff in Ht.
    destruct Ht as [[Ht|Ht]|Ht]; apply String.eqb_eq in Ht; auto.
  - exact Hfids.
  - rewrite Forall_forall in *; intros r Hr; destruct (Hfk r Hr) as [a [Ha Hin]].
    exists a; split; auto. rewrite map_app; apply in_or_app; left; exact Hin.
  - exact Hkeys.
Qed.

Lemma insert_folder_rest : forall a s n ro p so,
  safe rest_step (execute (insert_folder a s n ro p so)).
Proof.
  intros a s n ro p so; stmt_rest; destruct Hc as [Ha [_ [_ [_ [_ [Hacc _]]]]]]; auto.
  - rewrite map_app; apply NoDup_snoc; [exact Hfids | apply next_rowid_fresh].
  - apply Forall_app; split; auto. constructor; auto; simpl.
    destruct a as [a|]; [|discriminate Ha].
    apply existsb_exists in Hacc as [x [Hx Hxa]]; apply Z.eqb_eq in Hxa.
    exists a; split; auto. rewrite <- Hxa; apply in_map; exact Hx.
Qed.

Lemma update_folder_rest : forall n ro p so u,
  safe rest_step (execute (update_folder n ro p so u)).
Proof.
  intros n ro p so u; stmt_rest; auto;
    change (fun r => if fr_server_id r =? u then _ else r) with (upd_row n ro p so u).
  - rewrite map_map; erewrite map_ext; [exact Hfids|].
    intros r; unfold upd_row; destruct (fr_server_id r =? u); reflexivity.
  - rewrite Forall_forall in *; intros r' Hr'; apply in_map_iff in Hr' as [r [<- Hr]].
    destruct (Hfk r Hr) as [a [Ha Hin]]; exists a; split; auto.
    unfold upd_row; destruct (fr_server_id r =? u); auto.
Qed.

Lemma delete_folder_rest : forall u, safe rest_step (execute (delete_folder u)).
Proof.
  intros u; stmt_rest; auto.
  - apply NoDup_map_filter; exact Hfids.
  - apply Forall_filter_sub; exact Hfk.
Qed.

Lemma insert_misc_rest : forall k v, safe rest_step (execute (insert_misc k v)).
Proof.
  intros k v; stmt_rest; destruct Hc as [Hk _]; auto.
  apply Forall_app; split; auto. constructor; auto. simpl; auto using negb_eqb_true.
Qed.

Lemma update_misc_rest : forall v k, safe rest_step (execute (update_misc v k)).
Proof.
  intros v k; stmt_rest; auto.
  rewrite Forall_forall in *; intros m' Hm'; apply in_map_iff in Hm' as [m [<- Hm]].
  destruct (misc_key m =? k); simpl; auto.
Qed.

Lemma delete_misc_rest : forall k, safe rest_step (execute (delete_misc k)).
Proof.
  intros k; apply safe_execute; [apply rest_step_refl| |].
  - intros db db' u Hs [Hids [Hnames [Haccs [Hfids [Hfk Hkeys]]]]]; inversion Hs; subst.
    repeat split; auto. apply Forall_filter_sub; exact Hkeys.
  - intros db e Hs; discriminate.
Qed.

Lemma delete_all_folders_rest : safe rest_step (execute delete_all_folders).
Proof.
  apply safe_execute; [apply rest_step_refl| |].
  - intros db db' u Hs [Hids [Hnames [Haccs [Hfids [Hfk Hkeys]]]]].
    rewrite delete_all_folders_ok in Hs; inversion Hs; subst.
    repeat split; simpl; auto; constructor.
  - intros db e Hs; rewrite delete_all_folders_ok in Hs; discriminate.
Qed.

Lemma safe_conj : forall Q1 Q2 {A} (m : M A),
  safe Q1 m -> safe Q2 m -> safe (fun a b => Q1 a b /\ Q2 a b) m.
Proof.
  unfold safe; intros Q1 Q2 A m H1 H2 c r c' H.
  destruct (H1 _ _ _ H) as [T [Q R]]; destruct (H2 _ _ _ H) as [_ [Q' _]]; auto.
Qed.

Lemma schema_txn : forall body db,
  safe wf_step body -> safe rest_step body -> schema_ok db ->
  schema_ok (conn_db (snd (sqlite_txn body (connect db)))).
Proof.
  intros body db H1 H2 [Hw Hr].
  destruct (txn_rel (fun a b => wf_step a b /\ rest_step a b) body db) as [Hw' Hr'].
  - intros d; split; [apply wf_step_refl | apply rest_step_refl].
  - apply safe_conj; auto.
  - split; auto.
Qed.

Lemma save_body_rest : forall fs st acct,
  safe rest_step (
    account_id <- execute (insert_account acct "JMAP") ;;
    for_each fs (fun f =>
      execute (insert_folder (Some account_id) (fi_server_id f) (fi_name f)
                             (fi_role f) (fi_parent_id f) (fi_sort_order f))) ;;
    execute (insert_misc folders_state_key st)).
Proof.
  intros fs st acct.
  apply safe_bind; try solve [eauto with safe_db]; [apply insert_account_rest|]; intros id.
  apply safe_bind; try solve [eauto with safe_db]; [|intros _; apply insert_misc_rest].
  apply safe_for_each; try solve [eauto with safe_db]; intros f _; apply insert_folder_rest.
Qed.

Lemma update_body_rest : forall fc st,
  safe rest_step (
    for_each (created fc) (fun f =>
      print "creating folder" ;;
      execute (insert_folder None (ch_id f) (ch_name f) (ch_role f)
                             (ch_parent_id f) (ch_sort_order f))) ;;
    for_each (updated fc) (fun f =>
      print "updating folder" ;;
      execute (update_folder (ch_name f) (ch_role f) (ch_parent_id f)
                             (ch_sort_order f) (ch_id f))) ;;
    for_each (deleted fc) (fun f =>
      print "deleting folder" ;;
      execute (delete_folder (del_id f))) ;;
    execute (update_misc st folders_state_key)).
Proof.
  intros fc st.
  repeat (apply safe_bind; try solve [eauto with safe_db]; try intros _);
    try (apply safe_for_each; try solve [eauto with safe_db]; intros f _;
         apply safe_bind; try solve [eauto with safe_db]; intros _);
    auto using insert_folder_rest, update_folder_rest, delete_folder_rest, update_misc_rest.
Qed.

Lemma delete_body_rest :
  safe rest_step (execute (delete_misc folders_state_key) ;; execute delete_all_folders).
Proof.
  apply safe_bind; try solve [eauto with safe_db];
    [apply delete_misc_rest | intros _; apply delete_all_folders_rest].
Qed.

Lemma delete_body_wf :
  safe wf_step (execute (delete_misc folders_state_key) ;; execute delete_all_folders).
Proof.
  apply safe_bind; try solve [eauto with safe_db];
    [apply delete_misc_wf | intros _; apply delete_all_folders_wf].
Qed.

Lemma schema_ok_empty_db : schema_ok empty_db.
Proof. split; [exact wf_empty_db | repeat split; simpl; constructor]. Qed.

Lemma schema_save : forall db fs st acct,
  schema_ok db -> schema_ok (conn_db (snd (run_save_folders db fs st acct))).
Proof. intros; apply schema_txn; auto using save_body_wf, save_body_rest. Qed.

Lemma schema_update : forall db fc st,
  schema_ok db -> schema_ok (conn_db (snd (run_update_folders db fc st))).
Proof. intros; apply schema_txn; auto using update_body_wf, update_body_rest. Qed.

Lemma schema_delete : forall db,
  schema_ok db -> schema_ok (conn_db (snd (run_delete_folders db))).
Proof. intros; apply schema_txn; auto using delete_body_wf, delete_body_rest. Qed.

Lemma schema_ok_db_abc : schema_ok db_abc.
Proof. apply schema_save, schema_ok_empty_db. Qed.

(** *** The folder tree of the [GUI] *)

Lemma find_unique_sid : forall l r,
  NoDup (map fr_server_id l) -> In r l ->
  find (fun x => fr_server_id x =? fr_server_id r) l = Some r.
Proof.
  induction l as [|x l IH]; simpl; intros r Hnd Hin; [contradiction|].
  inversion Hnd as [|? ? Hx Hnd']; subst.
  destruct Hin as [<-|Hin]; [rewrite String.eqb_refl; reflexivity|].
  destruct (fr_server_id x =? fr_server_id r) eqn:E.
  - apply String.eqb_eq in E. exfalso; apply Hx; rewrite E; apply in_map; exact Hin.
  - auto.
Qed.

Lemma fill_tree_ok : forall fs tree,
  NoDup (map fv_server_id fs) ->
  (forall f, In f fs -> fv_server_id f <> "" /\ ~ In (fv_server_id f) (map fst tree)) ->
  fill_tree tree fs = Ret (tree ++ map (fun f => (fv_server_id f, fv_name f)) fs).
Proof.
  induction fs as [|f fs IH]; simpl; intros tree Hnd Hf.
  - rewrite app_nil_r; reflexivity.
  - inversion Hnd as [|? ? Hn Hnd']; subst.
    destruct (Hf f (or_introl eq_refl)) as [He Hnt].
    unfold tree_insert.
    apply String.eqb_neq in He; rewrite He; simpl.
    replace (existsb _ tree) with false.
    2:{ symmetry; apply not_true_iff_false; intros Hx.
        apply Hnt. apply existsb_exists in Hx as [e [He' Hee]]; apply String.eqb_eq in Hee.
        rewrite <- Hee; apply in_map; exact He'. }
    rewrite IH; [rewrite <- app_assoc; reflexivity | exact Hnd'|].
    intros g Hg; destruct (Hf g (or_intror Hg)) as [Hg1 Hg2]; split; auto.
    rewrite map_app; simpl; intros Hin; apply in_app_or in Hin as [Hin|[Hin|[]]]; auto.
    apply Hn; rewrite Hin; apply in_map; exact Hg.
Qed.

Lemma root_rows : forall db,
  get_folders db None =
    map view (order_by (filter (fun r => match fr_parent_server_id r with
                                         | None => true | Some _ => false end) (folders db))).
Proof. reflexivity. Qed.

Lemma wf_db_abc : wf db_abc.
Proof. apply save_folders_wf, wf_empty_db. Qed.

Lemma not_in_find_none : forall l x,
  ~ In x (map fr_server_id l) -> find (fun r => fr_server_id r =? x) l = None.
Proof.
  intros l x H. destruct (find _ l) as [r|] eqn:E; auto.
  apply find_some in E as [Hin Hx]; apply String.eqb_eq in Hx.
  exfalso; apply H; rewrite <- Hx; apply in_map; exact Hin.
Qed.

Lemma account_step_falsy : forall session s,
  (forall k, si_account_id (session k) = "") -> truthy (s_account_id s) = false ->
  truthy (s_account_id (snd (get_account_id session s))) = false /\
  session_requests (snd (get_account_id session s)) = S (session_requests s).
Proof.
  intros session s Hk Hs; unfold get_account_id; rewrite Hs; simpl.
  rewrite Hk; split; reflexivity.
Qed.

Lemma save_raises_on_taken : forall db fs st acct,
  existsb (fun a => acc_name a =? acct) (accounts db) = true ->
  exists k, run_save_folders db fs st acct = (Raise (IntegrityError k), connect db).
Proof.
  intros db fs st acct H. rewrite save_folders_txn.
  destruct (insert_account_taken acct db H) as [k Hk]; exists k.
  assert (E1 : execute (insert_account acct "JMAP") {| conn_db := db; conn_txn := Some db |}
               = (Raise (IntegrityError k), {| conn_db := db; conn_txn := Some db |}))
    by (unfold execute; simpl; rewrite Hk; reflexivity).
  rewrite (bind_raise _ _ _ _ _ E1); reflexivity.
Qed.

(** ** Properties of the code beyond the specification *)

(** The three writers of [Storage] keep every constraint of the schema
    ([DB_INIT_STATEMENTS]: primary keys, NOT NULL, UNIQUE, CHECK and
    foreign keys of [accounts], [folders] and [misc]), whether they commit
    or roll back. *)
Theorem storage_writes_keep_schema : forall db, schema_ok db ->
  (forall fs st acct, schema_ok (conn_db (snd (run_save_folders db fs st acct)))) /\
  (forall fc st, schema_ok (conn_db (snd (run_update_folders db fc st)))) /\
  schema_ok (conn_db (snd (run_delete_folders db))).
Proof.
  intros db H; split; [|split]; intros; auto using schema_save, schema_update, schema_delete.
Qed.

Lemma storage_writes_keep_schema_witness :
  schema_ok db_abc /\ schema_ok (conn_db (snd (run_delete_folders db_abc))).
Proof.
  split; [exact schema_ok_db_abc|].
  exact (proj2 (proj2 (storage_writes_keep_schema db_abc schema_ok_db_abc))).
Defined.

(** Every database the program produces from the freshly created one
    satisfies every constraint of the schema. *)
Theorem reachable_keeps_schema : forall db, reachable db -> schema_ok db.
Proof.
  induction 1; auto using schema_ok_empty_db, schema_save, schema_update, schema_delete.
Qed.

Lemma reachable_keeps_schema_witness : reachable db_abc /\ schema_ok db_abc.
Proof.
  assert (H : reachable db_abc) by (unfold db_abc; apply reach_save, reach_empty).
  split; [exact H | apply (reachable_keeps_schema db_abc H)].
Defined.

(** The run of [delete_folders]: it empties [folders], drops only the
    token row of [misc], and keeps the accounts. *)
Lemma delete_folders_run : forall db,
  run_delete_folders db =
    (Ret tt, connect {| accounts := accounts db; folders := [];
                        misc := filter (fun m => negb (misc_key m =? folders_state_key))
                                       (misc db) |}) /\
  folders_state (conn_db (snd (run_delete_folders db))) = None.
Proof.
  intros db.
  assert (H : run_delete_folders db =
    (Ret tt, connect {| accounts := accounts db; folders := [];
                        misc := filter (fun m => negb (misc_key m =? folders_state_key))
                                       (misc db) |})).
  { unfold run_delete_folders, delete_folders, sqlite_txn, bind, try_except,
      begin_immediate, execute, delete_misc, commit; simpl.
    rewrite delete_all_folders_ok; reflexivity. }
  split; [exact H|]. rewrite H; unfold folders_state; simpl.
  rewrite find_filter_negb; reflexivity.
Qed.

(** [save_folders] with an account name already in [accounts] raises an
    [IntegrityError] and leaves the database as it was. *)
Theorem save_folders_account_taken : forall db fs st acct,
  existsb (fun a => acc_name a =? acct) (accounts db) = true ->
  exists k, run_save_folders db fs st acct = (Raise (IntegrityError k), connect db).
Proof.
  intros db fs st acct H. rewrite save_folders_txn.
  destruct (insert_account_taken acct db H) as [k Hk]; exists k.
  assert (E1 : execute (insert_account acct "JMAP") {| conn_db := db; conn_txn := Some db |}
               = (Raise (IntegrityError k), {| conn_db := db; conn_txn := Some db |}))
    by (unfold execute; simpl; rewrite Hk; reflexivity).
  rewrite (bind_raise _ _ _ _ _ E1); reflexivity.
Qed.

(** After [delete_folders], saving the folders again under the same
    account name fails. *)
Lemma save_folders_account_taken_witness :
  exists k, run_save_folders (conn_db (snd (run_delete_folders db_abc))) [fA] "t2" "acct" =
            (Raise (IntegrityError k), connect (conn_db (snd (run_delete_folders db_abc)))).
Proof. apply save_folders_account_taken; vm_compute; reflexivity. Defined.

(** [update_folders] never adds a folder (its INSERT lacks [account_id])
    and never touches [accounts]. *)
Theorem update_folders_no_new_folder : forall db fc st,
  incl (map fr_server_id (folders (conn_db (snd (run_update_folders db fc st)))))
       (map fr_server_id (folders db)) /\
  accounts (conn_db (snd (run_update_folders db fc st))) = accounts db.
Proof.
  intros db fc st.
  exact (txn_rel no_new_folder _ db no_new_folder_refl (update_body_no_new_folder fc st)).
Qed.

(** [update_folders] on a mirror without a token commits or not, but
    never creates the token ([UPDATE misc] matches no row). *)
Theorem update_folders_never_creates_token : forall db fc st,
  folders_state db = None -> folders_state (conn_db (snd (run_update_folders db fc st))) = None.
Proof.
  intros db fc st H.
  destruct (run_update_folders db fc st) as [[u|e] c'] eqn:E; simpl.
  - destruct u; rewrite (update_folders_commit_token _ _ _ _ E), H; reflexivity.
  - unfold run_update_folders, update_folders in E.
    apply (txn_raise_restores wf_step) in E; [subst; exact H | apply update_body_wf].
Qed.

Lemma update_folders_never_creates_token_witness :
  folders_state (conn_db (snd (run_delete_folders db_abc))) = None /\
  fst (run_update_folders (conn_db (snd (run_delete_folders db_abc)))
         {| created := []; deleted := []; updated := [] |} "t3") = Ret tt /\
  folders_state (conn_db (snd (run_update_folders (conn_db (snd (run_delete_folders db_abc)))
         {| created := []; deleted := []; updated := [] |} "t3"))) = None.
Proof.
  split; [vm_compute; reflexivity|]. split; [vm_compute; reflexivity|].
  apply update_folders_never_creates_token; vm_compute; reflexivity.
Defined.

(** [save_folders] on a mirror without a token, with a new account name,
    a non-empty state and a listing whose parents come first: it commits,
    the token is the state, the folders are appended in order, one
    account is added, and [get_folder] finds every saved folder. *)
Theorem save_folders_round_trip : forall db fs st acct,
  folders_state db = None -> acct <> "" ->
  existsb (fun a => acc_name a =? acct) (accounts db) = false -> st <> "" ->
  inserts_ok (map fr_server_id (folders db)) fs = true ->
  let c' := snd (run_save_folders db fs st acct) in
  fst (run_save_folders db fs st acct) = Ret tt /\ conn_txn c' = None /\
  folders_state (conn_db c') = Some st /\
  map fr_server_id (folders (conn_db c')) = map fr_server_id (folders db) ++ map fi_server_id fs /\
  (exists a, accounts (conn_db c') = accounts db ++ [a] /\ acc_name a = acct) /\
  (forall f, In f fs ->
     get_folder (conn_db c') (fi_server_id f) = Ret {| ref_id := fi_server_id f;
                                                      ref_name := fi_name f |}).
Proof.
  intros db fs st acct Hst Ha Hu Hs Hok.
  destruct (save_folders_commits db fs st acct Hst Ha Hu Hs Hok) as [aid [rows [Hrun Hrows]]].
  destruct (inserts_ok_fresh _ _ Hok) as [Hnd Hfr].
  cbv zeta; rewrite Hrun; simpl.
  split; [reflexivity|]. split; [reflexivity|]. split.
  { rewrite (folders_state_misc _ {| accounts := accounts db; folders := folders db;
       misc := misc db ++ [{| misc_key := folders_state_key; misc_value := st |}] |})
      by reflexivity.
    apply folders_state_appended; exact Hst. }
  split; [rewrite map_app, (Forall2_saved_sids _ _ _ Hrows); reflexivity|].
  split; [eexists; split; reflexivity|].
  intros f Hf. unfold get_folder; simpl.
  rewrite find_app_none by (apply not_in_find_none, Hfr, in_map, Hf).
  destruct (find_saved aid fs rows f Hrows Hnd Hf) as [r [Hfind [Hsid Hname]]].
  rewrite Hfind, Hsid, Hname; reflexivity.
Qed.

Lemma save_folders_round_trip_witness :
  folders_state (conn_db (snd (run_delete_folders db_abc))) = None /\
  get_folder (conn_db (snd (run_save_folders (conn_db (snd (run_delete_folders db_abc)))
                                             [fA; fB] "t2" "acct2"))) "B"
    = Ret {| ref_id := "B"; ref_name := "Bills" |}.
Proof.
  split; [vm_compute; reflexivity|].
  refine (proj2 (proj2 (proj2 (proj2 (proj2 (save_folders_round_trip
            (conn_db (snd (run_delete_folders db_abc))) [fA; fB] "t2" "acct2" _ _ _ _ _)))))
            fB _); try (vm_compute; reflexivity); try discriminate.
  right; left; reflexivity.
Defined.

(** The first run of [__main__] on a mirror without a token saves the
    server's listing and stores its state as the token; the next run then
    asks the server for the changes since that state and applies them. *)
Theorem main_sync_first_run : forall srv db,
  folders_state db = None -> srv_account_id srv <> "" ->
  existsb (fun a => acc_name a =? srv_account_id srv) (accounts db) = false ->
  mg_state (srv_folders srv) <> "" ->
  inserts_ok (map fr_server_id (folders db)) (snd (server_get_folders (srv_folders srv))) = true ->
  let r := main_sync srv (connect db) in
  fst r = Ret tt /\
  folders_state (conn_db (snd r)) = Some (mg_state (srv_folders srv)) /\
  main_sync srv (snd r) =
    update_folders (snd (get_folder_changes (srv_changes srv (mg_state (srv_folders srv)))))
                   (fst (get_folder_changes (srv_changes srv (mg_state (srv_folders srv)))))
                   (snd r).
Proof.
  intros srv db Hst Ha Hu Hs Hok.
  assert (Hm : main_sync srv (connect db) =
               run_save_folders db (snd (server_get_folders (srv_folders srv)))
                                (mg_state (srv_folders srv)) (srv_account_id srv)).
  { unfold main_sync; simpl; rewrite Hst; reflexivity. }
  destruct (save_folders_commits db _ _ _ Hst Ha Hu Hs Hok) as [aid [rows [Hrun _]]].
  assert (Htok : folders_state (conn_db (snd (main_sync srv (connect db))))
                 = Some (mg_state (srv_folders srv))).
  { rewrite Hm, Hrun; simpl.
    rewrite (folders_state_misc _ {| accounts := accounts db; folders := folders db;
       misc := misc db ++ [{| misc_key := folders_state_key;
                              misc_value := mg_state (srv_folders srv) |}] |})
      by reflexivity.
    apply folders_state_appended; exact Hst. }
  cbv zeta; split; [rewrite Hm, Hrun; reflexivity|]. split; [exact Htok|].
  unfold main_sync at 1; rewrite Htok; simpl.
  apply String.eqb_neq in Hs; rewrite Hs; simpl.
  destruct (get_folder_changes (srv_changes srv (mg_state (srv_folders srv)))); reflexivity.
Qed.

Lemma main_sync_first_run_witness :
  fst (main_sync srv_demo (connect empty_db)) = Ret tt /\
  folders_state (conn_db (snd (main_sync srv_demo (connect empty_db)))) = Some "t1".
Proof.
  destruct (main_sync_first_run srv_demo empty_db) as [H1 [H2 _]];
    try (vm_compute; reflexivity); try discriminate.
  split; [exact H1 | exact H2].
Defined.

(** [GUI.show_folders] on a mirror that satisfies the schema lists the
    root folders without a duplicate [iid], and clicking any listed row
    shows that folder's name and fetches its emails by its id
    ([get_folder] does not hit a missing row); a click outside the rows
    ([identify_row] gives [""]) shows the plain "Emails" label. *)
Theorem gui_folder_click : forall db, wf db ->
  show_folders db = Ret (map (fun f => (fv_server_id f, fv_name f)) (get_folders db None)) /\
  NoDup (map fst (map (fun f => (fv_server_id f, fv_name f)) (get_folders db None))) /\
  (forall iid name, In (iid, name) (map (fun f => (fv_server_id f, fv_name f)) (get_folders db None)) ->
     show_emails db (Some iid) = Ret (name, Some iid)) /\
  show_emails db (Some "") = Ret ("Emails", None).
Proof.
  intros db [[Hnd [_ Hrows]] _].
  rewrite Forall_forall in Hrows.
  set (p := fun r => match fr_parent_server_id r with None => true | Some _ => false end).
  assert (Hperm : Permutation (order_by (filter p (folders db))) (filter p (folders db)))
    by apply order_by_perm.
  assert (Hin : forall r, In r (order_by (filter p (folders db))) -> In r (folders db)).
  { intros r Hr; apply (Permutation_in _ Hperm), filter_In in Hr; tauto. }
  assert (Hnd' : NoDup (map fv_server_id (get_folders db None))).
  { rewrite root_rows, map_map; simpl.
    apply (Permutation_NoDup (Permutation_map fr_server_id (Permutation_sym Hperm))).
    apply NoDup_map_filter; exact Hnd. }
  split; [|split; [|split]].
  - unfold show_folders; rewrite fill_tree_ok; auto.
    intros f Hf; split; [|intros []].
    rewrite root_rows in Hf; apply in_map_iff in Hf as [r [<- Hr]].
    destruct (Hrows r (Hin r Hr)) as [_ [Hs _]]; exact Hs.
  - rewrite map_map; exact Hnd'.
  - intros iid name H. rewrite root_rows, map_map in H.
    apply in_map_iff in H as [r [Hr Hrr]]; inversion Hr; subst iid name.
    destruct (Hrows r (Hin r Hrr)) as [_ [Hs _]].
    unfold show_emails, get_folder; simpl.
    apply String.eqb_neq in Hs; rewrite Hs; simpl.
    rewrite find_unique_sid; auto.
  - reflexivity.
Qed.

Lemma gui_folder_click_witness :
  show_folders db_abc = Ret [("A", "Archive"); ("C", "Inbox")] /\
  show_emails db_abc (Some "C") = Ret ("Inbox", Some "C").
Proof.
  destruct (gui_folder_click db_abc wf_db_abc) as [H1 [_ [H3 _]]].
  split.
  - rewrite H1; vm_compute; reflexivity.
  - apply H3; vm_compute; right; left; reflexivity.
Defined.

(** When the session's account id is the empty string ([not ''] is
    true), every read of [account_id] requests the session again. *)
Theorem account_id_empty_refetches : forall session n,
  (forall k, si_account_id (session k) = "") ->
  session_requests (Nat.iter n (fun s => snd (get_account_id session s)) new_server) = n.
Proof.
  intros session n Hk.
  assert (H : forall n, truthy (s_account_id (Nat.iter n (fun s => snd (get_account_id session s)) new_server)) = false /\
                session_requests (Nat.iter n (fun s => snd (get_account_id session s)) new_server) = n).
  { induction n0 as [|n0 [IH1 IH2]]; [split; reflexivity|].
    rewrite Nat.iter_succ. destruct (account_step_falsy session _ Hk IH1) as [H1 H2].
    split; [exact H1 | rewrite H2, IH2; reflexivity]. }
  apply H.
Qed.

Lemma account_id_empty_refetches_witness :
  session_requests (Nat.iter 3 (fun s => snd (get_account_id
    (fun _ => {| si_account_id := ""; si_api_url := "u"; si_download_url := "d" |}) s))
    new_server) = 3.
Proof. apply account_id_empty_refetches; intros k; reflexivity. Defined.

(** After [delete_folders], the next run of [__main__] takes the
    first-run path (no token), and its [save_folders] fails on the UNIQUE
    [accounts.name] of the account that is still there: the mirror stays
    empty and without a token. *)
Theorem main_sync_after_reset : forall srv db,
  existsb (fun a => acc_name a =? srv_account_id srv) (accounts db) = true ->
  let c := snd (run_delete_folders db) in
  folders (conn_db c) = [] /\ folders_state (conn_db c) = None /\
  exists k, main_sync srv c = (Raise (IntegrityError k), c).
Proof.
  intros srv db H; cbv zeta.
  destruct (delete_folders_run db) as [Hrun Hst]; rewrite Hrun in *; simpl in *.
  split; [reflexivity|]. split; [exact Hst|].
  unfold main_sync; simpl; rewrite Hst; simpl.
  eapply save_raises_on_taken; simpl; exact H.
Qed.

Lemma main_sync_after_reset_witness :
  folders (conn_db (snd (run_delete_folders db_abc))) = [] /\
  exists k, main_sync srv_demo (snd (run_delete_folders db_abc)) =
            (Raise (IntegrityError k), snd (run_delete_folders db_abc)).
Proof.
  destruct (main_sync_after_reset srv_demo db_abc) as [H1 [_ H3]];
    [vm_compute; reflexivity|].
  split; [exact H1 | exact H3].
Defined.
